(** * A shallow embedding of [mastodon_scraper.py] (class [Mastodon])

    The epoch pagination / checkpoint logic of the scraper: the start cursor
    of an epoch, the resume step that scans [data/posts/epochs], the search
    helpers with their bound adjustment and result cap, the epoch loop, and
    [combine_epochs].

    Modelling choices:
    - Python strings are [String.string]: a character is a code point below
      256 (Latin-1); names and queries with other characters are outside the
      model.  [str.isdigit] accepts the ASCII digits and the superscripts
      one, two and three; [int()] accepts only the ASCII digits.
    - Python numbers handed around as cursors are [pynum]: an [int] is a [Z],
      a [float] is a primitive IEEE-754 binary64 [float].
    - A DataFrame is a list of rows; a row carries its [id] cell
      ([None] is NaN) and its other cells.
    - The file system is a list of regular files in one listing order; a
      file is its directory (a relative path, components joined by single
      slashes, [.] for the working directory), its base name, whether it has columns, and the DataFrame it
      holds.  A file with columns has an [id] column; [read_csv] on it gives
      back what [to_csv] stored.  There are no symbolic links and names are
      case-sensitive.
    - The remote search ([self.api.timeline_hashtag]) is a section variable. *)

From Stdlib Require Import ZArith List String Ascii Bool Lia.
From Stdlib Require Import Sorting.Permutation Sorting.Sorted.
From Stdlib Require Import Floats.
Import ListNotations.

Open Scope Z_scope.

(** ** Strings *)

Module Str.

(** Python's [str.isdigit] on a Latin-1 string: non-empty, all digits,
    where the superscripts one, two and three (U+00B9, U+00B2, U+00B3) are
    digits too. *)
Definition is_digit_char (c : ascii) : bool :=
  let n := nat_of_ascii c in
  (Nat.leb 48 n && Nat.leb n 57 || Nat.eqb n 178 || Nat.eqb n 179 || Nat.eqb n 185)%bool.

Fixpoint all_digits (s : string) : bool :=
  match s with
  | EmptyString => true
  | String c r => is_digit_char c && all_digits r
  end.

Definition isdigit (s : string) : bool :=
  match s with
  | EmptyString => false
  | _ => all_digits s
  end.

(** The characters [int()] reads as decimal digits: the ASCII ones. *)
Definition is_decimal_char (c : ascii) : bool :=
  let n := nat_of_ascii c in (Nat.leb 48 n && Nat.leb n 57)%bool.

Fixpoint all_decimal (s : string) : bool :=
  match s with
  | EmptyString => true
  | String c r => is_decimal_char c && all_decimal r
  end.

(** Python's [int(s)] on a digit string (base 10). *)
Fixpoint int_acc (acc : Z) (s : string) : Z :=
  match s with
  | EmptyString => acc
  | String c r => int_acc (acc * 10 + (Z.of_nat (nat_of_ascii c) - 48)) r
  end.

Definition int (s : string) : Z := int_acc 0 s.

(** Python's [str(n)] on an [int]. *)
Definition digit_char (d : Z) : ascii := ascii_of_nat (Z.to_nat (48 + d)).

Fixpoint digits_fuel (fuel : nat) (n : Z) (acc : string) : string :=
  match fuel with
  | O => acc
  | S f =>
      let acc' := String (digit_char (n mod 10)) acc in
      if n <? 10 then acc' else digits_fuel f (n / 10) acc'
  end.

Definition str_of_Z (n : Z) : string :=
  let m := Z.abs n in
  let ds := digits_fuel (S (Z.to_nat (Z.log2 m))) m EmptyString in
  if n <? 0 then String "-" ds else ds.

(** Python's [<] on strings: lexicographic on code points. *)
Fixpoint ltb (s t : string) : bool :=
  match s, t with
  | _, EmptyString => false
  | EmptyString, String _ _ => true
  | String a s', String b t' =>
      let na := nat_of_ascii a in
      let nb := nat_of_ascii b in
      if Nat.ltb na nb then true
      else if Nat.ltb nb na then false
      else ltb s' t'
  end.

(** Python's [list.sort()] on a list of strings (an insertion sort; strings
    are totally ordered, so every sorting algorithm gives this list). *)
Fixpoint insert (s : string) (l : list string) : list string :=
  match l with
  | [] => [s]
  | t :: l' => if ltb t s then t :: insert s l' else s :: l
  end.

Fixpoint sort (l : list string) : list string :=
  match l with
  | [] => []
  | s :: l' => insert s (sort l')
  end.

Definition ends_with (suffix s : string) : bool :=
  let n := String.length s in
  let k := String.length suffix in
  (Nat.leb k n && String.eqb (substring (n - k) k s) suffix)%bool.

(** [s.replace(a, b)] for single characters. *)
Fixpoint replace_char (a b : ascii) (s : string) : string :=
  match s with
  | EmptyString => EmptyString
  | String c r =>
      String (if Ascii.eqb c a then b else c) (replace_char a b r)
  end.

Fixpoint has_backslash (s : string) : bool :=
  match s with
  | EmptyString => false
  | String c r => Ascii.eqb c "\"%char || has_backslash r
  end.

(** The part of [s] after its last backslash. *)
Fixpoint after_last_backslash (s : string) : string :=
  match s with
  | EmptyString => EmptyString
  | String c r =>
      if has_backslash r
      then after_last_backslash r
      else if Ascii.eqb c "\"%char then r else s
  end.

End Str.

(** ** Python numbers used as cursors *)

Inductive pynum :=
| PInt (z : Z)
| PFloat (f : float).

(** [float(z)] for an [int]: round to nearest, ties to even.  The
    primitive conversion from a 63-bit unsigned integer rounds that way;
    wider integers go through the binary64 specification.  Where the
    rounded value is infinite Python raises [OverflowError]; see
    [int_to_float_overflows]. *)
Definition float_of_int (z : Z) : float :=
  if (0 <=? z) && (z <? 2 ^ 63) then of_uint63 (Uint63.of_Z z)
  else if (z <? 0) && (- 2 ^ 63 <? z) then PrimFloat.opp (of_uint63 (Uint63.of_Z (- z)))
  else SF2Prim (binary_normalize prec emax z 0 false).

(** Whether [float(z)] raises [OverflowError]. *)
Definition int_to_float_overflows (z : Z) : bool := PrimFloat.is_infinity (float_of_int z).

(** [x - 1] and [x + 1] in Python: exact on [int], binary64 on [float]. *)
Definition py_sub1 (x : pynum) : pynum :=
  match x with
  | PInt z => PInt (z - 1)
  | PFloat f => PFloat (PrimFloat.sub f (float_of_int 1))
  end.

Definition py_add1 (x : pynum) : pynum :=
  match x with
  | PInt z => PInt (z + 1)
  | PFloat f => PFloat (PrimFloat.add f (float_of_int 1))
  end.

(** Whether the exact mathematical value of a binary64 number is [z]. *)
Definition sf_is_Z (x : spec_float) (z : Z) : bool :=
  match x with
  | S754_zero _ => z =? 0
  | S754_finite s m e =>
      let v := if s then Zneg m else Zpos m in
      if 0 <=? e then z =? v * 2 ^ e else z * 2 ^ (- e) =? v
  | _ => false
  end.

(** Whether a Python number equals the integer [z] (Python's [==]
    between [int] and [float] compares exact values). *)
Definition py_is_Z (x : pynum) (z : Z) : bool :=
  match x with
  | PInt y => y =? z
  | PFloat f => sf_is_Z (Prim2SF f) z
  end.

(** [Mastodon.__get_start_from_epoch]. *)
Definition get_start_from_epoch (epoch : Z) : pynum :=
  if epoch =? 0 then PInt 0
  else
    let base := 1e17%float in
    let increment := 1e15%float in
    PFloat (PrimFloat.add base (PrimFloat.mul (float_of_int (epoch - 1)) increment)).

(** ** DataFrames *)

Record row := mk_row {
  row_id : option Z;             (** the [id] cell; [None] is NaN *)
  row_cells : list (option string)  (** the other cells; [None] is NaN *)
}.

Definition frame := list row.

(** [df.empty] *)
Definition df_empty (df : frame) : bool :=
  match df with [] => true | _ => false end.

(** [df.isna().all().all()] *)
Definition df_all_na (df : frame) : bool :=
  forallb (fun r => match row_id r with None => true | Some _ => false end
                    && forallb (fun c => match c with None => true | Some _ => false end)
                               (row_cells r))%bool df.

(** The filter [not df.empty and not df.isna().all().all()]. *)
Definition df_valid (df : frame) : bool :=
  negb (df_empty df) && negb (df_all_na df).

(** [pd.concat(dfs, ignore_index=True)] *)
Definition concat (dfs : list frame) : frame := List.concat dfs.

(** ** Files *)

Record file := mk_csv {
  f_dir : string;
  f_name : string;
  f_columns : bool;   (** whether [read_csv] finds a column *)
  f_frame : frame
}.

(** The file [df.to_csv] writes: a DataFrame built from an empty list of
    posts has no columns, and [to_csv] writes a single newline for it. *)
Definition mk_file (d n : string) (df : frame) : file :=
  mk_csv d n (negb (df_empty df)) df.

(** [os.path.join(path, name)] *)
Definition path_join (path name : string) : string := (path ++ "/" ++ name)%string.

(** The base names matched by [*.csv]: [glob] skips names starting with a dot. *)
Definition glob_csv_name (name : string) : bool :=
  Str.ends_with ".csv" name &&
  match name with String "." _ => false | _ => true end.

(** The components of a path between its slashes. *)
Fixpoint path_components (cur s : string) : list string :=
  match s with
  | EmptyString => [cur]
  | String c r =>
      if Ascii.eqb c "/"%char then cur :: path_components EmptyString r
      else path_components (cur ++ String c EmptyString)%string r
  end.

Definition join_slash (l : list string) : string :=
  match l with
  | [] => "."
  | c :: l' => fold_left (fun acc x => (acc ++ "/" ++ x)%string) l' c
  end.

(** The directory a relative path without [..] components names: its
    components other than empty and [.] ones, joined by single slashes
    ([.] for the working directory). *)
Definition norm_dir (p : string) : string :=
  join_slash (filter (fun c => negb (String.eqb c "") && negb (String.eqb c "."))
                     (path_components EmptyString p)).

(** A directory argument the model covers: relative, without [..]
    components, without NUL and without the [glob] wildcards [*], [?], [[]. *)
Definition plain_dir (p : string) : bool :=
  match p with String "/" _ => false | _ => true end &&
  forallb (fun c => negb (String.eqb c "..")) (path_components EmptyString p) &&
  forallb (fun c => negb (Ascii.eqb c "*"%char || Ascii.eqb c "?"%char || Ascii.eqb c "["%char ||
                          Ascii.eqb c (ascii_of_nat 0)))
          (list_ascii_of_string p).

(** [glob.glob(os.path.join(directory, "*.csv"))], as the matching files. *)
Definition glob_csv (fs : list file) (directory : string) : list file :=
  filter (fun f => String.eqb (f_dir f) (norm_dir directory) && glob_csv_name (f_name f)) fs.

(** [Mastodon.__extract_csv_name]: [re.search(r'([^/\\]+)\.csv$', path)]
    on [directory/name]; the directory part ends in a slash, so the group
    is the part of the base name after its last backslash, without [.csv]. *)
Definition extract_csv_name (name : string) : option string :=
  let s := Str.after_last_backslash name in
  let n := String.length s in
  if Str.ends_with ".csv" s && Nat.ltb 4 n then Some (substring 0 (n - 4) s)
  else None.

(** ** The scraper object *)

Record state := mk_state {
  fs : list file;                 (** the file system, in listing order *)
  epoch_mode : bool;              (** [self.epoch_mode] *)
  epoch_num : Z;                  (** [self.epoch_num] *)
  query_list : list string;       (** [self.query_list] *)
  saved : list (string * Z)       (** the lines printed by [__save_csv]:
                                      the path written and its row count *)
}.

Definition set_fs (st : state) (x : list file) : state :=
  mk_state x (epoch_mode st) (epoch_num st) (query_list st) (saved st).
Definition set_epoch_mode (st : state) (b : bool) : state :=
  mk_state (fs st) b (epoch_num st) (query_list st) (saved st).
Definition set_epoch_num (st : state) (e : Z) : state :=
  mk_state (fs st) (epoch_mode st) e (query_list st) (saved st).
Definition add_saved (st : state) (m : string * Z) : state :=
  mk_state (fs st) (epoch_mode st) (epoch_num st) (query_list st) (saved st ++ [m]).

(** Writing [directory/name]: an existing file is overwritten in place,
    a new one is added to the listing. *)
Definition fs_write (x : list file) (directory name : string) (df : frame) : list file :=
  if existsb (fun f => String.eqb (f_dir f) directory && String.eqb (f_name f) name) x
  then map (fun f => if String.eqb (f_dir f) directory && String.eqb (f_name f) name
                     then mk_file directory name df else f) x
  else x ++ [mk_file directory name df].

(** [Mastodon.__save_csv] *)
Definition save_csv (st : state) (df : frame) (path filename : string) : state :=
  let name := (filename ++ ".csv")%string in
  add_saved (set_fs st (fs_write (fs st) path name df))
            (path_join path name, Z.of_nat (List.length df)).

(** The arguments of one call to [self.api.timeline_hashtag]. *)
Record call := mk_call {
  c_query : string;
  c_limit : Z;
  c_min_id : option pynum;
  c_max_id : option pynum
}.

(** [max(0, min(n, 40))] *)
Definition clamp (n : Z) : Z := Z.max 0 (Z.min n 40).

Definition epochs_dir : string := "data/posts/epochs".

Section Scraper.

(** The remote hashtag search: query, limit, [min_id], [max_id]. *)
Variable api : string -> Z -> option pynum -> option pynum -> frame.

(** [Mastodon.search_one_query]: the new state, the call made and the
    DataFrame returned. *)
Definition search_one_query (st : state) (search_query : string) (num_posts_per_query : Z)
    (start_id end_id : option pynum) : state * call * frame :=
  let n := clamp num_posts_per_query in
  let start_id' := match start_id with Some s => Some (py_sub1 s) | None => None end in
  let end_id' := match end_id with Some e => Some (py_add1 e) | None => None end in
  let df := api search_query n start_id' end_id' in
  let st' := if epoch_mode st then st
             else save_csv st df "data/posts" (Str.replace_char " " "_" search_query) in
  (st', mk_call search_query n start_id' end_id', df).

(** The loop of [search_list_of_queries]: the calls made and the valid
    DataFrames kept, in order. *)
Fixpoint search_queries (st : state) (qs : list string) (n : Z)
    (start_id end_id : option pynum) : state * list call * list frame :=
  match qs with
  | [] => (st, [], [])
  | q :: qs' =>
      let '(st1, c, df) := search_one_query st q n start_id end_id in
      let '(st2, cs, dfs) := search_queries st1 qs' n start_id end_id in
      (st2, c :: cs, if df_valid df then df :: dfs else dfs)
  end.

(** [Mastodon.search_list_of_queries] *)
Definition search_list_of_queries (st : state) (num_posts_per_query : Z)
    (start_id end_id : option pynum) : state * list call :=
  let n := clamp num_posts_per_query in
  let '(st1, calls, valid_dataframes) := search_queries st (query_list st) n start_id end_id in
  if epoch_mode st1 && negb (match valid_dataframes with [] => true | _ => false end)
  then (save_csv st1 (concat valid_dataframes) epochs_dir (Str.str_of_Z (epoch_num st1)), calls)
  else (st1, calls).

(** The resume step of [Mastodon.__run_epoch] (the lines computing
    [self.epoch_num]).  [None] is the [AttributeError] raised by
    [name.isdigit()] when [__extract_csv_name] returned [None]. *)
Definition resolve_next_epoch (x : list file) : option Z :=
  let csv_names := map (fun f => extract_csv_name (f_name f)) (glob_csv x epochs_dir) in
  if existsb (fun o => match o with None => true | Some _ => false end) csv_names
  then None
  else
    let names := flat_map (fun o => match o with Some s => [s] | None => [] end) csv_names in
    let names := Str.sort (filter Str.isdigit names) in
    match rev names with
    | last :: _ =>
        (** [int(last)] raises [ValueError] on a superscript digit and on
            more than 4300 digits (CPython's default limit since 3.11) *)
        if Str.all_decimal last && Nat.leb (String.length last) 4300
        then Some (Str.int last + 1) else None
    | [] => Some 0
    end.

(** [Mastodon.__run_epoch]; [None] is an exception.  Besides the resume
    step, [__get_start_from_epoch] raises [OverflowError] when
    [float(epoch - 1)] overflows. *)
Definition run_epoch (st : state) (num_posts_per_query : Z) : option (state * list call) :=
  match resolve_next_epoch (fs st) with
  | None => None
  | Some e =>
      let st1 := set_epoch_num st e in
      if negb (epoch_num st1 =? 0) && int_to_float_overflows (epoch_num st1 - 1) then None
      else
        let start_id := get_start_from_epoch (epoch_num st1) in
        Some (search_list_of_queries st1 num_posts_per_query (Some start_id) None)
  end.

Fixpoint run_epoch_loop (st : state) (k : nat) (num_posts_per_query : Z)
    : option (state * list call) :=
  match k with
  | O => Some (st, [])
  | S k' =>
      match run_epoch st num_posts_per_query with
      | None => None
      | Some (st1, cs1) =>
          match run_epoch_loop st1 k' num_posts_per_query with
          | None => None
          | Some (st2, cs2) => Some (st2, cs1 ++ cs2)
          end
      end
  end.

(** [Mastodon.run_epochs]; [range(num_epochs)] is empty for a negative count. *)
Definition run_epochs (st : state) (num_epochs : Z) (num_posts_per_query : Z)
    : option (state * list call) :=
  match run_epoch_loop (set_epoch_mode st true) (Z.to_nat num_epochs) num_posts_per_query with
  | None => None
  | Some (st1, cs) => Some (set_epoch_mode st1 false, cs)
  end.

End Scraper.

(** ** [combine_epochs] *)

Inductive py_error :=
| FileNotFoundError
| ValueError
| EmptyDataError.   (** pandas' [EmptyDataError], a subclass of [ValueError] *)

Definition id_eqb (a b : option Z) : bool :=
  match a, b with
  | Some x, Some y => x =? y
  | None, None => true       (** [drop_duplicates] treats NaN as equal to NaN *)
  | _, _ => false
  end.

(** [df.drop_duplicates(subset=id_column)]: keep the first row of each id. *)
Fixpoint drop_duplicates_aux (seen : list (option Z)) (df : frame) : frame :=
  match df with
  | [] => []
  | r :: df' =>
      if existsb (id_eqb (row_id r)) seen then drop_duplicates_aux seen df'
      else r :: drop_duplicates_aux (row_id r :: seen) df'
  end.

Definition drop_duplicates (df : frame) : frame := drop_duplicates_aux [] df.

(** The order of [sort_values(by=id_column)]: ascending, NaN last. *)
Definition id_leb (a b : option Z) : bool :=
  match a, b with
  | Some x, Some y => x <=? y
  | Some _, None => true
  | None, Some _ => false
  | None, None => true
  end.

Fixpoint insert_row (r : row) (df : frame) : frame :=
  match df with
  | [] => [r]
  | t :: df' => if id_leb (row_id t) (row_id r) then t :: insert_row r df' else r :: df
  end.

(** [df.sort_values(by=id_column).reset_index(drop=True)]; the ids are
    distinct after [drop_duplicates], so every sorting algorithm gives this
    list. *)
Fixpoint sort_values (df : frame) : frame :=
  match df with
  | [] => []
  | r :: df' => insert_row r (sort_values df')
  end.

(** [pd.read_csv(file)]: a file without columns raises [EmptyDataError]. *)
Definition read_csv (f : file) : py_error + frame :=
  if f_columns f then inr (f_frame f) else inl EmptyDataError.

(** The loading loop of [combine_epochs]: the files read in listing order,
    the frames that are neither empty nor all NaN kept. *)
Fixpoint load_frames (files : list file) : py_error + list frame :=
  match files with
  | [] => inr []
  | f :: files' =>
      match read_csv f with
      | inl e => inl e
      | inr df =>
          match load_frames files' with
          | inl e => inl e
          | inr dfs => inr (if df_valid df then df :: dfs else dfs)
          end
      end
  end.

(** [Mastodon.combine_epochs(directory)] (the [id] column). *)
Definition combine_epochs (st : state) (directory : string) : py_error + (state * frame) :=
  let csv_files := glob_csv (fs st) directory in
  match csv_files with
  | [] => inl FileNotFoundError
  | _ =>
      match load_frames csv_files with
      | inl e => inl e
      | inr [] => inl ValueError
      | inr dataframes =>
          let combined_df := concat dataframes in
          let combined_df := drop_duplicates combined_df in
          let combined_df := sort_values combined_df in
          let st' := save_csv st combined_df epochs_dir "combined_epochs" in
          inr (st', combined_df)
      end
  end.

(** ** Checking helpers *)

(** Exactness of the epoch start cursors [n .. n + k - 1]. *)
Fixpoint check_starts (k : nat) (n v : Z) : bool :=
  match k with
  | O => true
  | S k' => py_is_Z (get_start_from_epoch n) v && check_starts k' (n + 1) (v + 10 ^ 15)
  end.

(** ** Reading the query list *)

Module Lines.

(** Python's [str.isspace] on one Latin-1 character: tab, line feed,
    vertical tab, form feed, carriage return, the separators 0x1c-0x1f,
    space, next line (0x85) and no-break space (0xa0). *)
Definition is_space (c : ascii) : bool :=
  let n := nat_of_ascii c in
  (Nat.leb 9 n && Nat.leb n 13) || (Nat.leb 28 n && Nat.leb n 32) ||
  Nat.eqb n 133 || Nat.eqb n 160.

Fixpoint drop_ws (l : list ascii) : list ascii :=
  match l with
  | [] => []
  | c :: l' => if is_space c then drop_ws l' else l
  end.

(** [s.strip()]: leading and trailing whitespace removed. *)
Definition strip (s : string) : string :=
  string_of_list_ascii (rev (drop_ws (rev (drop_ws (list_ascii_of_string s))))).

Definition nl : ascii := Ascii.ascii_of_nat 10.
Definition cr : ascii := Ascii.ascii_of_nat 13.

(** Text-mode reading with universal newlines: [\r\n] and [\r] become [\n]. *)
Fixpoint universal_newlines (s : string) : string :=
  match s with
  | EmptyString => EmptyString
  | String c r =>
      if Ascii.eqb c cr then
        match r with
        | String d r' => if Ascii.eqb d nl then String nl (universal_newlines r')
                         else String nl (universal_newlines r)
        | EmptyString => String nl EmptyString
        end
      else String c (universal_newlines r)
  end.

(** [for line in file]: the lines, each with its [\n] (the last one without
    it when the text does not end in a newline). *)
Fixpoint lines_aux (cur : string) (s : string) : list string :=
  match s with
  | EmptyString => match cur with EmptyString => [] | _ => [cur] end
  | String c r =>
      if Ascii.eqb c nl then (cur ++ String nl EmptyString)%string :: lines_aux EmptyString r
      else lines_aux (cur ++ String c EmptyString)%string r
  end.

Definition file_lines (contents : string) : list string :=
  lines_aux EmptyString (universal_newlines contents).

(** A query line: no line feed, no carriage return. *)
Definition no_break (q : string) : bool :=
  forallb (fun c => negb (Ascii.eqb c nl || Ascii.eqb c cr)) (list_ascii_of_string q).

End Lines.

(** The text of a query file holding [qs], one per line. *)
Definition query_file (qs : list string) : string :=
  fold_right (fun q acc => (q ++ String Lines.nl acc)%string) EmptyString qs.

Definition set_query_list (st : state) (qs : list string) : state :=
  mk_state (fs st) (epoch_mode st) (epoch_num st) qs (saved st).

(** [Mastodon.get_list_of_queries]: [contents] is the text of the file, or
    [None] when opening it raises [FileNotFoundError] (reported, then the
    list is empty). *)
Definition get_list_of_queries (st : state) (contents : option string) : state :=
  let query_list :=
    match contents with
    | None => []
    | Some text => map Lines.strip (Lines.file_lines text)
    end in
  set_query_list st query_list.

(** ** Lookups used to state properties *)

(** The file [directory/name], if present. *)
Definition fs_lookup (x : list file) (directory name : string) : option file :=
  find (fun f => String.eqb (f_dir f) directory && String.eqb (f_name f) name) x.

(** Whether [f] is the file [d/n]. *)
Definition fs_key (d n : string) (f : file) : bool :=
  String.eqb (f_dir f) d && String.eqb (f_name f) n.

(** What [search_one_query] asks for, with the clamped limit and the
    adjusted bounds. *)
Definition query_result (api : string -> Z -> option pynum -> option pynum -> frame)
    (n : Z) (start_id end_id : option pynum) (q : string) : frame :=
  api q (clamp n) (option_map py_sub1 start_id) (option_map py_add1 end_id).

(** The file name [search_one_query] saves a query's results under. *)
Definition query_csv_name (q : string) : string :=
  (Str.replace_char " " "_" q ++ ".csv")%string.

(** The number of bytes of [s] in UTF-8. *)
Definition utf8_length (s : string) : nat :=
  fold_right (fun c acc => ((if Nat.ltb (nat_of_ascii c) 128 then 1 else 2) + acc)%nat)
             0%nat (list_ascii_of_string s).

(** A query whose file name [<query>.csv] Linux accepts as a single path
    component: no NUL, no slash, and at most 255 bytes with [.csv]. *)
Definition safe_query (q : string) : bool :=
  forallb (fun c => negb (Nat.eqb (nat_of_ascii c) 0 || Nat.eqb (nat_of_ascii c) 47))
          (list_ascii_of_string q) &&
  Nat.leb (utf8_length q) 251.

(** Whether every character of [s] is ASCII. *)
Definition ascii7 (s : string) : bool :=
  forallb (fun c => Nat.ltb (nat_of_ascii c) 128) (list_ascii_of_string s).

(** The digit stems the resume step of [__run_epoch] sorts. *)
Definition epoch_stems (x : list file) : list string :=
  filter Str.isdigit
    (flat_map (fun o => match o with Some s => [s] | None => [] end)
              (map (fun f => extract_csv_name (f_name f)) (glob_csv x epochs_dir))).

(** * Properties *)

Lemma clamp_idem (n : Z) : clamp (clamp n) = clamp n.
Proof. unfold clamp; lia. Qed.

Lemma check_starts_ok (k : nat) : forall n v,
  check_starts k n v = true ->
  forall m, n <= m < n + Z.of_nat k -> py_is_Z (get_start_from_epoch m) (v + (m - n) * 10 ^ 15) = true.
Proof.
  induction k as [|k IH]; intros n v H m Hm; cbn [check_starts] in *.
  - lia.
  - apply andb_prop in H as [H1 H2].
    destruct (Z.eq_dec m n) as [->|Hne].
    + rewrite Z.sub_diag, Z.mul_0_l, Z.add_0_r; exact H1.
    + specialize (IH (n + 1) (v + 10 ^ 15) H2 m ltac:(lia)).
      replace (v + (m - n) * 10 ^ 15) with (v + 10 ^ 15 + (m - (n + 1)) * 10 ^ 15) by ring.
      exact IH.
Qed.

Lemma starts_exact_upto_295049 : check_starts (Z.to_nat 295049) 1 (10 ^ 17) = true.
Proof. vm_compute. reflexivity. Qed.

Section SearchFacts.

Variable api : string -> Z -> option pynum -> option pynum -> frame.

Lemma search_queries_calls (qs : list string) : forall st n s e,
  let cs := snd (fst (search_queries api st qs n s e)) in
  map c_query cs = qs /\
  Forall (fun c => c_limit c = clamp n /\ c_min_id c = option_map py_sub1 s
                   /\ c_max_id c = option_map py_add1 e) cs.
Proof.
  induction qs as [|q qs IH]; intros st n s e; simpl.
  - split; [reflexivity | constructor].
  - destruct (search_queries api _ qs n s e) as [[st2 cs] dfs] eqn:Hr.
    specialize (IH (fst (fst (search_one_query api st q n s e))) n s e).
    unfold search_one_query in *; simpl in *.
    rewrite Hr in IH; simpl in IH; destruct IH as [IH1 IH2].
    split; [now rewrite IH1 |].
    constructor; [| exact IH2].
    simpl; repeat split; destruct s, e; reflexivity.
Qed.

Lemma search_list_of_queries_calls (st : state) (n : Z) (s e : option pynum) :
  let cs := snd (search_list_of_queries api st n s e) in
  map c_query cs = query_list st /\
  Forall (fun c => c_limit c = clamp n /\ c_min_id c = option_map py_sub1 s
                   /\ c_max_id c = option_map py_add1 e) cs.
Proof.
  unfold search_list_of_queries.
  pose proof (search_queries_calls (query_list st) st (clamp n) s e) as [H1 H2].
  destruct (search_queries api st (query_list st) (clamp n) s e) as [[st1 cs] dfs].
  simpl in *; rewrite clamp_idem in H2.
  destruct (epoch_mode st1 && _)%bool; simpl; auto.
Qed.

End SearchFacts.

(** ** The start cursor of an epoch *)

(** (C6, counterexample) The start cursor of epoch 295050 is a binary64
    number whose value is not [10^17 + 295049 * 10^15]. *)
Lemma get_start_from_epoch_295050_inexact :
  py_is_Z (get_start_from_epoch 295050) (10 ^ 17 + (295050 - 1) * 10 ^ 15) = false.
Proof. vm_compute. reflexivity. Qed.

(** (C6, amended) Epoch 0 starts at the [int] 0; an epoch [n >= 1] starts
    at the [float] [1e17 + float(n - 1) * 1e15] computed in binary64, whose
    value is exactly [10^17 + (n - 1) * 10^15] for [1 <= n <= 295049]. *)
Theorem get_start_from_epoch_exact_range :
  get_start_from_epoch 0 = PInt 0 /\
  forall n, 1 <= n <= 295049 ->
    get_start_from_epoch n
      = PFloat (PrimFloat.add 1e17%float (PrimFloat.mul (float_of_int (n - 1)) 1e15%float)) /\
    py_is_Z (get_start_from_epoch n) (10 ^ 17 + (n - 1) * 10 ^ 15) = true.
Proof.
  split; [reflexivity |].
  intros n Hn; split.
  - unfold get_start_from_epoch.
    destruct (Z.eqb_spec n 0); [lia | reflexivity].
  - apply (check_starts_ok _ 1 (10 ^ 17) starts_exact_upto_295049).
    rewrite Z2Nat.id by lia. lia.
Qed.

Lemma get_start_from_epoch_exact_range_witness :
  py_is_Z (get_start_from_epoch 2) 101000000000000000 = true.
Proof.
  apply (proj2 (proj2 get_start_from_epoch_exact_range 2 ltac:(lia))).
Defined.

(** ** Bounds and result cap of one search *)

(** (C7, code bug) [search_one_query] subtracts 1 from [start_id] so that
    the start cursor is included, but the start cursor of epoch 1 is the
    [float] [1e17], and [1e17 - 1] in binary64 is [1e17] again: the search
    receives [min_id] with value [10^17], not [10^17 - 1]. *)
Lemma search_one_query_float_bound_not_decremented :
  let c := snd (fst (search_one_query (fun _ _ _ _ => []) (mk_state [] true 1 ["python"%string] [])
                       "python"%string 20 (Some (get_start_from_epoch 1)) None)) in
  c_min_id c = Some (PFloat 1e17%float) /\
  py_is_Z (PFloat 1e17%float) (10 ^ 17) = true /\
  py_is_Z (PFloat 1e17%float) (10 ^ 17 - 1) = false.
Proof. vm_compute. repeat split. Qed.

(** (C8) Every search call, whether made by [search_one_query] directly or by
    [search_list_of_queries], receives the result cap [max(0, min(n, 40))];
    100 becomes 40 and -5 becomes 0. *)
Theorem result_cap_clamped (api : string -> Z -> option pynum -> option pynum -> frame)
    (st : state) (q : string) (n : Z) (s e : option pynum) :
  c_limit (snd (fst (search_one_query api st q n s e))) = Z.max 0 (Z.min n 40) /\
  Forall (fun c => c_limit c = Z.max 0 (Z.min n 40))
         (snd (search_list_of_queries api st n s e)) /\
  clamp 100 = 40 /\ clamp (-5) = 0.
Proof.
  split; [reflexivity |].
  split; [| split; reflexivity].
  destruct (search_list_of_queries_calls api st n s e) as [_ H].
  eapply Forall_impl; [| exact H]. simpl. intros c [Hc _]. exact Hc.
Qed.

(** ** Epoch 0 *)

(** (C10) When the resume step yields epoch 0, every query of the epoch is
    searched with [min_id] the [int] [-1] (the start cursor 0 minus one) and
    no [max_id]. *)
Theorem run_epoch_zero_min_id (api : string -> Z -> option pynum -> option pynum -> frame)
    (st st' : state) (n : Z) (calls : list call)
    (H0 : resolve_next_epoch (fs st) = Some 0)
    (Hrun : run_epoch api st n = Some (st', calls)) :
  map c_query calls = query_list st /\
  Forall (fun c => c_min_id c = Some (PInt (-1)) /\ c_max_id c = None) calls.
Proof.
  unfold run_epoch in Hrun; rewrite H0 in Hrun.
  injection Hrun as Hr.
  change (get_start_from_epoch 0) with (PInt 0) in Hr.
  destruct (search_list_of_queries_calls api (set_epoch_num st 0) n (Some (PInt 0)) None)
    as [H1 H2].
  rewrite Hr in H1, H2; simpl in *.
  split; [exact H1 |].
  eapply Forall_impl; [| exact H2]. simpl. intros c (_ & Hmin & Hmax). now split.
Qed.

Lemma run_epoch_zero_min_id_witness :
  let api := fun (_ : string) (_ : Z) (_ : option pynum) (_ : option pynum) => @nil row in
  let st := mk_state [] true 0 ["python"; "rust"]%string [] in
  Forall (fun c => c_min_id c = Some (PInt (-1)) /\ c_max_id c = None)
         (snd (search_list_of_queries api (set_epoch_num st 0) 20 (Some (PInt 0)) None)).
Proof.
  intros api st.
  apply (proj2 (run_epoch_zero_min_id api st _ 20 _ eq_refl eq_refl)).
Defined.

(** ** The resume step *)

(** (C1) The resume step sorts the digit stems as strings, so its "last"
    stem is the lexicographic maximum: with [9.csv] and [10.csv] it resumes
    at epoch 10 (from ["9"]), not at 11.  On [0.csv, 1.csv, 3.csv, foo.csv]
    it resumes at 4. *)
Theorem resolve_next_epoch_string_order :
  resolve_next_epoch (map (fun nm => mk_file epochs_dir nm [])
                          ["9.csv"; "10.csv"]%string) = Some 10 /\
  resolve_next_epoch (map (fun nm => mk_file epochs_dir nm [])
                          ["0.csv"; "1.csv"; "3.csv"; "foo.csv"]%string) = Some 4 /\
  resolve_next_epoch [] = Some 0.
Proof. vm_compute. repeat split. Qed.

(** (C2) Three epochs run from a checkpoint directory holding [0.csv] ..
    [8.csv], every search returning one post: the epochs written are 9, 10
    and 10 again, the third overwriting the second, and the directory ends
    with 11 checkpoint files instead of 12. *)
Theorem run_epochs_rewrites_epoch_10 :
  let post := mk_row (Some 5) [Some "hello"%string] in
  let api := fun (_ : string) (_ : Z) (_ : option pynum) (_ : option pynum) => [post] in
  let st0 := mk_state (map (fun k => mk_file epochs_dir (Str.str_of_Z k ++ ".csv") [post])
                           [0; 1; 2; 3; 4; 5; 6; 7; 8])
                      false 0 ["python"%string] [] in
  match run_epochs api st0 3 20 with
  | Some (st', _) =>
      map fst (saved st') = ["data/posts/epochs/9.csv"; "data/posts/epochs/10.csv";
                             "data/posts/epochs/10.csv"]%string /\
      List.length (glob_csv (fs st') epochs_dir) = 11%nat
  | None => False
  end.
Proof. vm_compute. split; reflexivity. Qed.

Section EmptyEpoch.

Variable api : string -> Z -> option pynum -> option pynum -> frame.

Lemma search_queries_epoch_mode (qs : list string) : forall st n s e,
  epoch_mode st = true -> fst (fst (search_queries api st qs n s e)) = st.
Proof.
  induction qs as [|q qs IH]; intros st n s e Hm; simpl; [reflexivity |].
  unfold search_one_query; rewrite Hm.
  specialize (IH st n s e Hm).
  destruct (search_queries api st qs n s e) as [[st2 cs] dfs]; exact IH.
Qed.

Lemma search_queries_no_valid (qs : list string) : forall st n s e,
  (forall q, In q qs ->
     df_valid (api q (clamp n) (option_map py_sub1 s) (option_map py_add1 e)) = false) ->
  snd (search_queries api st qs n s e) = [].
Proof.
  induction qs as [|q qs IH]; intros st n s e Hq; [reflexivity |].
  cbn [search_queries].
  destruct (search_one_query api st q n s e) as [[st1 c] df] eqn:Hs.
  specialize (IH st1 n s e (fun q' Hin => Hq q' (or_intror Hin))).
  destruct (search_queries api st1 qs n s e) as [[st2 cs] dfs]; simpl in *.
  assert (Hv : df_valid df = false).
  { unfold search_one_query in Hs; injection Hs as _ _ <-.
    destruct s, e; apply Hq; left; reflexivity. }
  rewrite Hv; exact IH.
Qed.

Lemma search_list_of_queries_no_valid (st : state) (n : Z) (s e : option pynum) :
  epoch_mode st = true ->
  (forall q, In q (query_list st) ->
     df_valid (api q (clamp n) (option_map py_sub1 s) (option_map py_add1 e)) = false) ->
  fst (search_list_of_queries api st n s e) = st.
Proof.
  intros Hm Hq. unfold search_list_of_queries.
  pose proof (search_queries_epoch_mode (query_list st) st (clamp n) s e Hm) as H1.
  assert (Hq' : forall q, In q (query_list st) ->
     df_valid (api q (clamp (clamp n)) (option_map py_sub1 s) (option_map py_add1 e)) = false)
    by (intros q Hin; rewrite clamp_idem; exact (Hq q Hin)).
  pose proof (search_queries_no_valid (query_list st) st (clamp n) s e Hq') as H2.
  destruct (search_queries api st (query_list st) (clamp n) s e) as [[st1 cs] dfs].
  simpl in *; subst; rewrite andb_false_r; reflexivity.
Qed.

End EmptyEpoch.

(** (C3) An epoch (run in epoch mode, as [run_epochs] does) in which every
    search call it makes returns an empty or all-NaN DataFrame writes
    nothing: the files and the printed save lines are unchanged, the resume
    step still yields the same epoch, and running the epoch again repeats it
    exactly, with the same epoch number and the same search calls (the same
    cursor range). *)
Theorem run_epoch_all_empty_unchanged (api : string -> Z -> option pynum -> option pynum -> frame)
    (st st' : state) (n : Z) (calls : list call)
    (Hmode : epoch_mode st = true)
    (Hrun : run_epoch api st n = Some (st', calls))
    (Hempty : Forall (fun c => df_valid (api (c_query c) (c_limit c) (c_min_id c) (c_max_id c)) = false)
                     calls) :
  fs st' = fs st /\ saved st' = saved st /\
  resolve_next_epoch (fs st') = Some (epoch_num st') /\
  run_epoch api st' n = Some (st', calls).
Proof.
  unfold run_epoch in *.
  destruct (resolve_next_epoch (fs st)) as [e|] eqn:He; [| discriminate].
  change (epoch_num (set_epoch_num st e)) with e in Hrun.
  destruct (negb (e =? 0) && int_to_float_overflows (e - 1))%bool eqn:Ho; [discriminate |].
  injection Hrun as Hr.
  pose proof (search_list_of_queries_calls api (set_epoch_num st e) n
                (Some (get_start_from_epoch e)) None) as [Hq Hc].
  rewrite Hr in Hq, Hc; cbn [snd] in Hq, Hc.
  assert (Hv : forall q, In q (query_list (set_epoch_num st e)) ->
             df_valid (api q (clamp n) (option_map py_sub1 (Some (get_start_from_epoch e)))
                             (option_map py_add1 None)) = false).
  { intros q Hin. rewrite <- Hq in Hin. apply in_map_iff in Hin as (c & <- & Hin).
    rewrite Forall_forall in Hc, Hempty. destruct (Hc c Hin) as (E1 & E2 & E3).
    rewrite <- E1, <- E2, <- E3. exact (Hempty c Hin). }
  pose proof (search_list_of_queries_no_valid api (set_epoch_num st e) n
                (Some (get_start_from_epoch e)) None Hmode Hv) as Hst.
  rewrite Hr in Hst; cbn [fst] in Hst; subst st'.
  change (fs (set_epoch_num st e)) with (fs st).
  change (saved (set_epoch_num st e)) with (saved st).
  rewrite He.
  change (set_epoch_num (set_epoch_num st e) e) with (set_epoch_num st e).
  change (epoch_num (set_epoch_num st e)) with e.
  rewrite Ho, Hr. repeat split.
Qed.

(** The search of this witness returns posts for every limit but 20, so
    only the calls of the epoch come back empty. *)
Lemma run_epoch_all_empty_unchanged_witness :
  let api := fun (_ : string) (lim : Z) (_ : option pynum) (_ : option pynum) =>
               if lim =? 20 then [] else [mk_row (Some 1) []] in
  let st := mk_state [mk_file epochs_dir "0.csv" [mk_row (Some 1) []]] true 0 ["python"%string] [] in
  df_valid (api "python"%string 40 None None) = true /\
  run_epoch api (set_epoch_num st 1) 20 = Some (set_epoch_num st 1, snd (search_list_of_queries api (set_epoch_num st 1) 20 (Some (get_start_from_epoch 1)) None)).
Proof.
  intros api st. split; [reflexivity |].
  refine (proj2 (proj2 (proj2 (run_epoch_all_empty_unchanged api st (set_epoch_num st 1) 20 _
            eq_refl _ _)))).
  - vm_compute. reflexivity.
  - vm_compute. repeat constructor.
Defined.

(** ** Deduplication and sorting of [combine_epochs] *)

Module Combine.

Lemma id_eqb_spec (a b : option Z) : id_eqb a b = true <-> a = b.
Proof.
  destruct a as [x|], b as [y|]; simpl; split; intro H; try congruence.
  - apply Z.eqb_eq in H; congruence.
  - apply Z.eqb_eq; congruence.
Qed.

Lemma id_eqb_refl (a : option Z) : id_eqb a a = true.
Proof. apply id_eqb_spec; reflexivity. Qed.

Lemma existsb_id_eqb (k : option Z) (seen : list (option Z)) :
  existsb (id_eqb k) seen = true <-> In k seen.
Proof.
  rewrite existsb_exists; split.
  - intros (x & Hx & He). apply id_eqb_spec in He; subst; exact Hx.
  - intros Hk; exists k; split; [exact Hk | apply id_eqb_refl].
Qed.

Lemma dd_subset (l : frame) : forall seen r, In r (drop_duplicates_aux seen l) -> In r l.
Proof.
  induction l as [|t l IH]; intros seen r Hr; simpl in *; [exact Hr |].
  destruct (existsb (id_eqb (row_id t)) seen).
  - right; eapply IH; exact Hr.
  - destruct Hr as [<-|Hr]; [left; reflexivity | right; eapply IH; exact Hr].
Qed.

Lemma dd_fresh (l : frame) : forall seen r,
  In r (drop_duplicates_aux seen l) -> ~ In (row_id r) seen.
Proof.
  induction l as [|t l IH]; intros seen r Hr; simpl in *; [contradiction |].
  destruct (existsb (id_eqb (row_id t)) seen) eqn:Ht.
  - eapply IH; exact Hr.
  - destruct Hr as [<-|Hr].
    + intro Hin. apply existsb_id_eqb in Hin. congruence.
    + intro Hin. apply (IH _ r Hr). right; exact Hin.
Qed.

Lemma dd_nodup (l : frame) : forall seen, NoDup (map row_id (drop_duplicates_aux seen l)).
Proof.
  induction l as [|t l IH]; intros seen; simpl; [constructor |].
  destruct (existsb (id_eqb (row_id t)) seen); [apply IH |].
  simpl; constructor; [| apply IH].
  intro Hin. apply in_map_iff in Hin as (r & Hid & Hr).
  apply (dd_fresh _ _ _ Hr). rewrite Hid. left; reflexivity.
Qed.

Lemma dd_ids (l : frame) : forall seen k,
  In k (map row_id l) -> In k seen \/ In k (map row_id (drop_duplicates_aux seen l)).
Proof.
  induction l as [|t l IH]; intros seen k Hk; simpl in *; [contradiction |].
  destruct (existsb (id_eqb (row_id t)) seen) eqn:Ht.
  - destruct Hk as [<-|Hk].
    + left; apply existsb_id_eqb; exact Ht.
    + apply IH; exact Hk.
  - destruct Hk as [<-|Hk]; [right; left; reflexivity |].
    destruct (IH (row_id t :: seen) k Hk) as [[<-|H]|H]; simpl; auto.
Qed.

Lemma dd_first (l : frame) : forall seen r,
  In r (drop_duplicates_aux seen l) ->
  find (fun t => id_eqb (row_id t) (row_id r)) l = Some r.
Proof.
  induction l as [|t l IH]; intros seen r Hr; simpl in *; [contradiction |].
  destruct (existsb (id_eqb (row_id t)) seen) eqn:Ht.
  - assert (Hne : id_eqb (row_id t) (row_id r) = false).
    { destruct (id_eqb (row_id t) (row_id r)) eqn:E; [| reflexivity].
      apply id_eqb_spec in E. apply existsb_id_eqb in Ht.
      exfalso; apply (dd_fresh _ _ _ Hr); rewrite <- E; exact Ht. }
    rewrite Hne. eapply IH; exact Hr.
  - destruct Hr as [<-|Hr]; [rewrite id_eqb_refl; reflexivity |].
    assert (Hne : id_eqb (row_id t) (row_id r) = false).
    { destruct (id_eqb (row_id t) (row_id r)) eqn:E; [| reflexivity].
      apply id_eqb_spec in E.
      exfalso; apply (dd_fresh _ _ _ Hr); rewrite <- E; left; reflexivity. }
    rewrite Hne. eapply IH; exact Hr.
Qed.

Definition row_le (a b : row) : Prop := id_leb (row_id a) (row_id b) = true.

(** Ascending by id, NaN last, without ties. *)
Definition row_lt (a b : row) : Prop :=
  id_leb (row_id a) (row_id b) = true /\ row_id a <> row_id b.

Lemma id_leb_total (a b : option Z) : id_leb a b = false -> id_leb b a = true.
Proof.
  destruct a as [x|], b as [y|]; simpl; try discriminate; intros H; auto.
  apply Z.leb_gt in H. apply Z.leb_le. lia.
Qed.

Lemma id_leb_trans (a b c : option Z) :
  id_leb a b = true -> id_leb b c = true -> id_leb a c = true.
Proof.
  destruct a as [x|], b as [y|], c as [z|]; simpl; try discriminate; auto.
  rewrite !Z.leb_le. lia.
Qed.

Lemma insert_row_perm (r : row) (l : frame) : Permutation (insert_row r l) (r :: l).
Proof.
  induction l as [|t l IH]; simpl; [reflexivity |].
  destruct (id_leb (row_id t) (row_id r)); [| reflexivity].
  rewrite IH. apply perm_swap.
Qed.

Lemma sort_values_perm (l : frame) : Permutation (sort_values l) l.
Proof.
  induction l as [|r l IH]; simpl; [reflexivity |].
  rewrite insert_row_perm. now apply perm_skip.
Qed.

Lemma insert_row_sorted (r : row) (l : frame) :
  Sorted row_le l -> Sorted row_le (insert_row r l).
Proof.
  induction l as [|t l IH]; intros Hs; simpl.
  - repeat constructor.
  - destruct (id_leb (row_id t) (row_id r)) eqn:Htr.
    + apply Sorted_inv in Hs as [Hs Hh].
      constructor; [apply IH; exact Hs |].
      destruct l as [|u l]; simpl.
      * constructor; exact Htr.
      * apply HdRel_inv in Hh.
        destruct (id_leb (row_id u) (row_id r)); constructor; assumption.
    + constructor; [exact Hs |]. constructor. apply id_leb_total; exact Htr.
Qed.

Lemma sort_values_sorted (l : frame) : Sorted row_le (sort_values l).
Proof.
  induction l as [|r l IH]; simpl; [constructor |].
  apply insert_row_sorted; exact IH.
Qed.

Lemma sorted_nodup_strict (l : frame) :
  Sorted row_le l -> NoDup (map row_id l) -> Sorted row_lt l.
Proof.
  induction l as [|r l IH]; intros Hs Hn; [constructor |].
  apply Sorted_inv in Hs as [Hs Hh]. simpl in Hn. inversion Hn as [|? ? Hnin Hn']; subst.
  constructor; [apply IH; assumption |].
  destruct l as [|t l]; constructor.
  apply HdRel_inv in Hh. split; [exact Hh |].
  intro E. apply Hnin. rewrite E. left; reflexivity.
Qed.

End Combine.

Lemma load_frames_cases (l : list file) :
  (Forall (fun f => f_columns f = true) l /\
   load_frames l = inr (filter df_valid (map f_frame l))) \/
  (Exists (fun f => f_columns f = false) l /\ load_frames l = inl EmptyDataError).
Proof.
  induction l as [|f l IH]; [left; split; [constructor | reflexivity] |].
  cbn [load_frames]. unfold read_csv.
  destruct (f_columns f) eqn:Ec.
  - destruct IH as [[Hc ->] | [Hc ->]].
    + left. split; [constructor; assumption |].
      cbn [map filter]. destruct (df_valid (f_frame f)); reflexivity.
    + right. split; [right; exact Hc | reflexivity].
  - right. split; [left; exact Ec | reflexivity].
Qed.

Lemma combine_epochs_result (st st' : state) (directory : string) (res : frame) :
  combine_epochs st directory = inr (st', res) ->
  let combined := concat (filter df_valid (map f_frame (glob_csv (fs st) directory))) in
  res = sort_values (drop_duplicates combined) /\
  st' = save_csv st res epochs_dir "combined_epochs" /\
  combined <> [].
Proof.
  unfold combine_epochs.
  destruct (glob_csv (fs st) directory) as [|f fs'] eqn:Hg; [discriminate |].
  destruct (load_frames_cases (f :: fs')) as [[_ ->] | [_ ->]]; [| discriminate].
  destruct (filter df_valid (map f_frame (f :: fs'))) as [|df dfs] eqn:Hd; [discriminate |].
  intros H; injection H as <- <-. simpl.
  split; [reflexivity | split; [reflexivity |]].
  assert (Hv : df_valid df = true).
  { assert (In df (filter df_valid (map f_frame (f :: fs')))) as Hin by (rewrite Hd; left; auto).
    apply filter_In in Hin; apply Hin. }
  destruct df as [|r df]; [discriminate | discriminate].
Qed.

(** (C4) A successful [combine_epochs] returns one row per distinct id
    (NaN counting as one value, as in [drop_duplicates]) of the concatenated
    valid frames, sorted ascending by id with no ties (NaN last); each row is
    the first row with its id in concatenation (file listing) order.  With
    files A (ids 1, 2, 3) and B (ids 3, 4, 5) the result has the ids
    1, 2, 3, 4, 5 and its row 3 comes from the file listed first. *)
Theorem combine_epochs_unique_sorted_first :
  (forall st st' directory res,
     combine_epochs st directory = inr (st', res) ->
     let combined := concat (filter df_valid (map f_frame (glob_csv (fs st) directory))) in
     NoDup (map row_id res) /\
     Sorted Combine.row_lt res /\
     (forall k, In k (map row_id res) <-> In k (map row_id combined)) /\
     (forall r, In r res -> find (fun t => id_eqb (row_id t) (row_id r)) combined = Some r)) /\
  (let rw := fun (i : Z) (s : string) => mk_row (Some i) [Some s] in
   let fa := mk_file epochs_dir "A.csv" [rw 1 "A"; rw 2 "A"; rw 3 "A"]%string in
   let fb := mk_file epochs_dir "B.csv" [rw 3 "B"; rw 4 "B"; rw 5 "B"]%string in
   match combine_epochs (mk_state [fa; fb] false 0 [] []) epochs_dir,
         combine_epochs (mk_state [fb; fa] false 0 [] []) epochs_dir with
   | inr (_, res_ab), inr (_, res_ba) =>
       res_ab = [rw 1 "A"; rw 2 "A"; rw 3 "A"; rw 4 "B"; rw 5 "B"]%string /\
       res_ba = [rw 1 "A"; rw 2 "A"; rw 3 "B"; rw 4 "B"; rw 5 "B"]%string
   | _, _ => False
   end).
Proof.
  split; [| vm_compute; split; reflexivity].
  intros st st' directory res H combined.
  destruct (combine_epochs_result st st' directory res H) as [Hres _].
  fold combined in Hres. subst res.
  pose proof (Combine.sort_values_perm (drop_duplicates combined)) as Hp.
  assert (Hnd : NoDup (map row_id (sort_values (drop_duplicates combined)))).
  { eapply Permutation_NoDup; [symmetry; apply Permutation_map; exact Hp |].
    apply Combine.dd_nodup. }
  split; [exact Hnd | split; [| split]].
  - apply Combine.sorted_nodup_strict; [apply Combine.sort_values_sorted | exact Hnd].
  - intros k; split; intros Hk.
    + apply in_map_iff in Hk as (r & <- & Hr).
      apply in_map. apply (Combine.dd_subset _ []).
      eapply Permutation_in; [exact Hp | exact Hr].
    + destruct (Combine.dd_ids combined [] k Hk) as [[]|Hk'].
      eapply Permutation_in; [symmetry; apply Permutation_map; exact Hp | exact Hk'].
  - intros r Hr. apply (Combine.dd_first _ []).
    eapply Permutation_in; [exact Hp | exact Hr].
Qed.

Lemma combine_epochs_unique_sorted_first_witness :
  let st := mk_state [mk_file epochs_dir "0.csv" [mk_row (Some 2) []; mk_row (Some 1) []]]
                     false 0 [] [] in
  let res := [mk_row (Some 1) []; mk_row (Some 2) []] in
  combine_epochs st epochs_dir = inr (save_csv st res epochs_dir "combined_epochs", res) /\
  NoDup (map row_id res).
Proof.
  intros st res.
  assert (H : combine_epochs st epochs_dir
              = inr (save_csv st res epochs_dir "combined_epochs", res))
    by (vm_compute; reflexivity).
  split; [exact H |].
  exact (proj1 (proj1 combine_epochs_unique_sorted_first st _ epochs_dir res H)).
Defined.




(** ** Where [combine_epochs] reads and writes *)

Lemma fs_write_in (x : list file) (d n : string) (df : frame) :
  In (mk_file d n df) (fs_write x d n df).
Proof.
  unfold fs_write.
  destruct (existsb _ x) eqn:E.
  - apply existsb_exists in E as (f & Hf & Hm).
    apply in_map_iff. exists f. split; [rewrite Hm; reflexivity | exact Hf].
  - apply in_or_app; right; left; reflexivity.
Qed.

Lemma glob_csv_iff (x : list file) (directory : string) (f : file) :
  In f (glob_csv x directory) <->
  In f x /\ f_dir f = norm_dir directory /\ glob_csv_name (f_name f) = true.
Proof.
  unfold glob_csv. rewrite filter_In, andb_true_iff, String.eqb_eq. tauto.
Qed.

Lemma glob_csv_write_other (x : list file) (d n : string) (df : frame) (directory : string) :
  d <> norm_dir directory -> glob_csv (fs_write x d n df) directory = glob_csv x directory.
Proof.
  intros Hne. pose proof (proj2 (String.eqb_neq d (norm_dir directory)) Hne) as Hd'.
  unfold glob_csv, fs_write.
  destruct (existsb _ x).
  - induction x as [|f x IH]; simpl; [reflexivity |].
    destruct ((f_dir f =? d) && (f_name f =? n))%string eqn:Ef.
    + apply andb_true_iff in Ef as [Hd _]. apply String.eqb_eq in Hd.
      simpl. rewrite Hd, Hd'. simpl. exact IH.
    + destruct ((f_dir f =? norm_dir directory)%string && glob_csv_name (f_name f));
        [now rewrite IH | exact IH].
  - rewrite filter_app. simpl. rewrite Hd'. simpl. apply app_nil_r.
Qed.

Lemma sort_values_nonempty (df : frame) : df <> [] -> sort_values (drop_duplicates df) <> [].
Proof.
  destruct df as [|r df]; [congruence | intros _].
  unfold drop_duplicates; cbn [drop_duplicates_aux existsb sort_values].
  destruct (sort_values _) as [|t l]; [discriminate |].
  cbn [insert_row]. destruct (id_leb (row_id t) (row_id r)); discriminate.
Qed.

(** (C9, counterexample) Combining the directory [other] writes
    [combined_epochs.csv] to [data/posts/epochs], not to [other]: the
    [*.csv] files of [other] are the same afterwards, so a second
    invocation on [other] does not see the archive. *)
Lemma combine_epochs_other_directory :
  let f := mk_file "other" "0.csv" [mk_row (Some 1) []] in
  match combine_epochs (mk_state [f] false 0 [] []) "other" with
  | inr (st', res) =>
      fs st' = [f; mk_file epochs_dir "combined_epochs.csv" res] /\
      glob_csv (fs st') "other" = [f]
  | inl _ => False
  end.
Proof. vm_compute. split; reflexivity. Qed.

(** (C9, amended) [combine_epochs] loads every [*.csv] file of [directory]
    (no filter on numeric names) and always writes [combined_epochs.csv] to
    [data/posts/epochs], whatever [directory] is; the archive it writes has
    columns.  For a directory argument the model covers (a relative path
    without [..], NUL or [glob] wildcards, with no symbolic links), a second
    invocation loads that archive exactly when [directory] names
    [data/posts/epochs] (the default, or the same path with [.] components
    or repeated or trailing slashes), and then concatenates it whenever it
    is neither empty nor all NaN; on any other directory it lists the same
    [*.csv] files as the first invocation. *)
Theorem combine_epochs_archive_reloaded (st st' : state) (directory : string) (res : frame)
    (Hdir : plain_dir directory = true)
    (H : combine_epochs st directory = inr (st', res)) :
  let archive := mk_file epochs_dir "combined_epochs.csv" res in
  (forall f, In f (glob_csv (fs st) directory) <->
             In f (fs st) /\ f_dir f = norm_dir directory /\ glob_csv_name (f_name f) = true) /\
  In archive (fs st') /\ f_columns archive = true /\
  (norm_dir directory = epochs_dir ->
     In archive (glob_csv (fs st') directory) /\
     (df_valid res = true ->
        In res (filter df_valid (map f_frame (glob_csv (fs st') directory))))) /\
  (norm_dir directory <> epochs_dir ->
     glob_csv (fs st') directory = glob_csv (fs st) directory).
Proof.
  intros archive. clear Hdir.
  destruct (combine_epochs_result st st' directory res H) as (Hres & Hst & Hne).
  assert (Hin : In archive (fs st')).
  { rewrite Hst. apply fs_write_in. }
  split; [intro f; apply glob_csv_iff |].
  split; [exact Hin |].
  split.
  { unfold archive, mk_file; cbn [f_columns]. rewrite Hres.
    apply negb_true_iff. destruct (sort_values _) eqn:E; [| reflexivity].
    exfalso; exact (sort_values_nonempty _ Hne E). }
  split.
  - intros Hd.
    assert (Hg : In archive (glob_csv (fs st') directory)).
    { apply glob_csv_iff. split; [exact Hin | split; [symmetry; exact Hd | reflexivity]]. }
    split; [exact Hg |].
    intros Hv. apply filter_In. split; [| exact Hv].
    change res with (f_frame archive).
    apply in_map; exact Hg.
  - intros Hd. rewrite Hst. unfold save_csv; cbn [fs set_fs add_saved].
    apply glob_csv_write_other. intro E; apply Hd; symmetry; exact E.
Qed.

(** The directory [./data/posts/epochs/] names [data/posts/epochs]: a second
    invocation on it lists the archive. *)
Lemma combine_epochs_archive_reloaded_witness :
  let st := mk_state [mk_file epochs_dir "0.csv" [mk_row (Some 1) []]] false 0 [] [] in
  let res := [mk_row (Some 1) []] in
  plain_dir "./data/posts/epochs/" = true /\
  In (mk_file epochs_dir "combined_epochs.csv" res)
     (glob_csv (fs (save_csv st res epochs_dir "combined_epochs")) "./data/posts/epochs/").
Proof.
  intros st res. split; [reflexivity |].
  exact (proj1 (proj1 (proj2 (proj2 (proj2 (combine_epochs_archive_reloaded st _ "./data/posts/epochs/" res
           eq_refl ltac:(vm_compute; reflexivity))))) eq_refl)).
Defined.

(** * Further properties of the scraper *)

(** ** Reading the query list *)

Module LinesFacts.
Import Lines.

Lemma str_app_assoc (a b c : string) : ((a ++ b) ++ c = a ++ (b ++ c))%string.
Proof. induction a as [|x a IH]; simpl; [reflexivity | now rewrite IH]. Qed.

Lemma list_ascii_app (a b : string) :
  list_ascii_of_string (a ++ b) = list_ascii_of_string a ++ list_ascii_of_string b.
Proof. induction a as [|x a IH]; simpl; [reflexivity | now rewrite IH]. Qed.

Lemma drop_ws_head (l : list ascii) (c : ascii) (m : list ascii) :
  drop_ws l = c :: m -> is_space c = false.
Proof.
  induction l as [|d l IH]; simpl; [discriminate |].
  destruct (is_space d) eqn:E; [exact IH | intros H; injection H as <- _; exact E].
Qed.

Lemma drop_ws_idem (l : list ascii) : drop_ws (drop_ws l) = drop_ws l.
Proof.
  destruct (drop_ws l) as [|c m] eqn:E; [reflexivity |].
  simpl; rewrite (drop_ws_head _ _ _ E); reflexivity.
Qed.

Lemma drop_ws_suffix (l : list ascii) : exists p, l = p ++ drop_ws l.
Proof.
  induction l as [|c l IH]; simpl; [exists []; reflexivity |].
  destruct (is_space c); [| exists []; reflexivity].
  destruct IH as [p Hp]. exists (c :: p). simpl; now rewrite <- Hp.
Qed.

Lemma drop_ws_app_nonempty (l x : list ascii) :
  drop_ws l <> [] -> drop_ws (l ++ x) = drop_ws l ++ x.
Proof.
  induction l as [|c l IH]; simpl; [congruence |].
  destruct (is_space c); [exact IH | reflexivity].
Qed.

Lemma drop_ws_app_empty (l x : list ascii) :
  drop_ws l = [] -> drop_ws (l ++ x) = drop_ws x.
Proof.
  induction l as [|c l IH]; simpl; [reflexivity |].
  destruct (is_space c); [exact IH | discriminate].
Qed.

Lemma drop_ws_length (l : list ascii) : (List.length (drop_ws l) <= List.length l)%nat.
Proof.
  induction l as [|c l IH]; simpl; [lia |].
  destruct (is_space c); simpl; lia.
Qed.

(** Removing trailing whitespace from a list that starts with a
    non-whitespace character leaves it starting with that character. *)
Lemma trim_end_keeps_front (a : list ascii) :
  drop_ws a = a -> drop_ws (rev (drop_ws (rev a))) = rev (drop_ws (rev a)).
Proof.
  intros Ha.
  destruct (drop_ws_suffix (rev a)) as [p Hp].
  assert (Hsplit : a = rev (drop_ws (rev a)) ++ rev p).
  { rewrite <- rev_app_distr, <- Hp, rev_involutive; reflexivity. }
  destruct (rev (drop_ws (rev a))) as [|c m] eqn:E; [reflexivity |].
  rewrite Hsplit in Ha. cbn [drop_ws app] in Ha.
  cbn [drop_ws]. destruct (is_space c) eqn:Ec; [| reflexivity].
  exfalso.
  apply (f_equal (@List.length ascii)) in Ha.
  pose proof (drop_ws_length (m ++ rev p)). simpl in Ha. lia.
Qed.

Lemma strip_idem (s : string) : strip (strip s) = strip s.
Proof.
  unfold strip. rewrite list_ascii_of_string_of_list_ascii. f_equal.
  set (A := drop_ws (list_ascii_of_string s)).
  rewrite (trim_end_keeps_front A (drop_ws_idem _)).
  rewrite rev_involutive, drop_ws_idem. reflexivity.
Qed.

Lemma strip_newline (q : string) :
  strip q = q -> strip (q ++ String nl EmptyString) = q.
Proof.
  unfold strip. rewrite list_ascii_app. simpl.
  set (l := list_ascii_of_string q).
  intros Hq.
  destruct (drop_ws l) as [|c m] eqn:E.
  - rewrite (drop_ws_app_empty _ _ E). simpl. exact Hq.
  - rewrite (drop_ws_app_nonempty _ _ ltac:(rewrite E; discriminate)), E.
    rewrite rev_app_distr. simpl. exact Hq.
Qed.

Lemma universal_newlines_line (q rest : string) :
  no_break q = true ->
  universal_newlines (q ++ String nl rest) = (q ++ String nl (universal_newlines rest))%string.
Proof.
  induction q as [|c q IH]; intros Hq; simpl.
  - reflexivity.
  - unfold no_break in Hq; simpl in Hq.
    apply andb_prop in Hq as [Hc Hq].
    apply negb_true_iff, orb_false_iff in Hc as [_ Hc]. rewrite Hc.
    now rewrite IH.
Qed.

Lemma lines_aux_line (q rest : string) : forall cur,
  no_break q = true ->
  lines_aux cur (q ++ String nl rest)
  = ((cur ++ q ++ String nl EmptyString)%string :: lines_aux EmptyString rest).
Proof.
  induction q as [|c q IH]; intros cur Hq; simpl.
  - reflexivity.
  - unfold no_break in Hq; simpl in Hq.
    apply andb_prop in Hq as [Hc Hq].
    apply negb_true_iff, orb_false_iff in Hc as [Hc _]. rewrite Hc.
    rewrite IH by exact Hq. now rewrite str_app_assoc.
Qed.

End LinesFacts.


(** (X1) [get_list_of_queries] replaces the query list: with a missing file
    it becomes empty, otherwise every query it keeps has no leading or
    trailing whitespace; nothing else of the object changes. *)
Theorem get_list_of_queries_stripped (st : state) (contents : option string) :
  let st' := get_list_of_queries st contents in
  (contents = None -> query_list st' = []) /\
  Forall (fun q => Lines.strip q = q) (query_list st') /\
  fs st' = fs st /\ epoch_mode st' = epoch_mode st /\
  epoch_num st' = epoch_num st /\ saved st' = saved st.
Proof.
  simpl. split; [intros ->; reflexivity |].
  split; [| repeat split].
  destruct contents as [text|]; [| constructor].
  apply Forall_forall. intros q Hq.
  apply in_map_iff in Hq as (l & <- & _).
  apply LinesFacts.strip_idem.
Qed.

Lemma file_lines_query_file (qs : list string) :
  Forall (fun q => Lines.no_break q = true) qs ->
  Lines.file_lines (query_file qs)
  = map (fun q => (q ++ String Lines.nl EmptyString)%string) qs.
Proof.
  unfold Lines.file_lines.
  assert (Hu : forall l, Forall (fun q => Lines.no_break q = true) l ->
                 Lines.universal_newlines (query_file l) = query_file l).
  { induction l as [|q l IH]; intros H; [reflexivity |].
    inversion H; subst. simpl.
    rewrite LinesFacts.universal_newlines_line by assumption.
    now rewrite IH. }
  intros H. rewrite (Hu qs H). clear Hu.
  induction qs as [|q qs IH]; [reflexivity |].
  inversion H; subst. simpl.
  rewrite LinesFacts.lines_aux_line by assumption.
  now rewrite IH.
Qed.

(** (X2) Round trip: writing queries that have no surrounding whitespace
    and no line break one per line (each ended by a newline) and loading
    the file with [get_list_of_queries] gives back exactly those queries,
    in order, empty ones included. *)
Theorem get_list_of_queries_roundtrip (st : state) (qs : list string)
    (H : Forall (fun q => Lines.strip q = q /\ Lines.no_break q = true) qs) :
  query_list (get_list_of_queries st (Some (query_file qs))) = qs.
Proof.
  simpl. rewrite file_lines_query_file.
  - rewrite map_map. induction qs as [|q qs IH]; [reflexivity |].
    inversion H as [|? ? [Hs _] Hqs]; subst. simpl.
    rewrite LinesFacts.strip_newline by exact Hs. now rewrite IH.
  - eapply Forall_impl; [| exact H]. simpl. tauto.
Qed.

Lemma get_list_of_queries_roundtrip_witness :
  query_list (get_list_of_queries (mk_state [] false 0 [] [])
                (Some (query_file ["python"; "rust lang"; ""]%string)))
  = ["python"; "rust lang"; ""]%string.
Proof.
  apply get_list_of_queries_roundtrip.
  repeat constructor.
Defined.

(** ** The file system after writes *)

Module FsFacts.

Lemma key_new (d n : string) (df : frame) : fs_key d n (mk_file d n df) = true.
Proof. unfold fs_key; simpl; now rewrite !String.eqb_refl. Qed.

Lemma key_true (d n : string) (f : file) : fs_key d n f = true -> f_dir f = d /\ f_name f = n.
Proof. unfold fs_key; rewrite andb_true_iff, !String.eqb_eq; tauto. Qed.

Lemma key_other (d n d' n' : string) (df : frame) :
  d <> d' \/ n <> n' -> fs_key d' n' (mk_file d n df) = false.
Proof.
  intros H; unfold fs_key; simpl.
  destruct (String.eqb_spec d d'), (String.eqb_spec n n'); simpl; auto; tauto.
Qed.

Lemma fs_lookup_write_same (x : list file) (d n : string) (df : frame) :
  fs_lookup (fs_write x d n df) d n = Some (mk_file d n df).
Proof.
  unfold fs_lookup, fs_write. fold (fs_key d n).
  change (fun f : file => if (f_dir f =? d)%string && (f_name f =? n)%string
                          then mk_file d n df else f)
    with (fun f => if fs_key d n f then mk_file d n df else f).
  destruct (existsb (fs_key d n) x) eqn:E.
  - induction x as [|f x IH]; cbn [find map existsb app orb] in *; [discriminate |].
    destruct (fs_key d n f) eqn:Ef; cbn [find map existsb app filter].
    + now rewrite key_new.
    + rewrite Ef. apply IH; exact E.
  - induction x as [|f x IH]; cbn [find map existsb app orb] in *; [now rewrite key_new |].
    apply orb_false_iff in E as [Ef E]. rewrite Ef. apply IH; exact E.
Qed.

Lemma fs_lookup_write_other (x : list file) (d n d' n' : string) (df : frame) :
  d <> d' \/ n <> n' -> fs_lookup (fs_write x d n df) d' n' = fs_lookup x d' n'.
Proof.
  intros Hne. unfold fs_lookup, fs_write. fold (fs_key d n) (fs_key d' n').
  change (fun f : file => if (f_dir f =? d)%string && (f_name f =? n)%string
                          then mk_file d n df else f)
    with (fun f => if fs_key d n f then mk_file d n df else f).
  pose proof (key_other d n d' n' df Hne) as Hk.
  destruct (existsb (fs_key d n) x) eqn:E.
  - clear E. induction x as [|f x IH]; cbn [find map existsb app filter]; [reflexivity |].
    destruct (fs_key d n f) eqn:Ef; cbn [find map existsb app filter].
    + rewrite Hk. destruct (key_true _ _ _ Ef) as [Hd Hn].
      assert (Hf : fs_key d' n' f = false).
      { unfold fs_key; rewrite Hd, Hn.
        destruct (String.eqb_spec d d'), (String.eqb_spec n n'); cbn [find map existsb app filter]; auto; tauto. }
      rewrite Hf. exact IH.
    + destruct (fs_key d' n' f); [reflexivity | exact IH].
  - clear E. induction x as [|f x IH]; cbn [find map existsb app filter]; [now rewrite Hk |].
    destruct (fs_key d' n' f); [reflexivity | exact IH].
Qed.

Lemma fold_write_lookup_other (d : string) (nm : string -> string) (g : string -> frame)
    (qs : list string) : forall (x : list file) (d' k : string),
  d <> d' \/ Forall (fun q => nm q <> k) qs ->
  fs_lookup (fold_left (fun x q => fs_write x d (nm q) (g q)) qs x) d' k = fs_lookup x d' k.
Proof.
  induction qs as [|q qs IH]; intros x d' k H; [reflexivity |]; cbn [fold_left].
  rewrite IH.
  - apply fs_lookup_write_other. destruct H as [H | H]; [now left | right].
    now inversion H.
  - destruct H as [H | H]; [now left | right]. now inversion H.
Qed.

Lemma fold_write_lookup_last (d : string) (nm : string -> string) (g : string -> frame)
    (pre post : list string) (q : string) (x : list file) :
  Forall (fun q' => nm q' <> nm q) post ->
  fs_lookup (fold_left (fun x q => fs_write x d (nm q) (g q)) (pre ++ q :: post) x) d (nm q)
  = Some (mk_file d (nm q) (g q)).
Proof.
  intros H. rewrite fold_left_app. cbn [fold_left].
  rewrite fold_write_lookup_other by (right; exact H).
  apply fs_lookup_write_same.
Qed.

Lemma fold_write_glob_other (d : string) (nm : string -> string) (g : string -> frame)
    (directory : string) (qs : list string) : forall (x : list file),
  d <> norm_dir directory ->
  glob_csv (fold_left (fun x q => fs_write x d (nm q) (g q)) qs x) directory = glob_csv x directory.
Proof.
  induction qs as [|q qs IH]; intros x H; [reflexivity |]; cbn [fold_left].
  rewrite IH by exact H. now apply glob_csv_write_other.
Qed.

End FsFacts.

(** ** The search loop, composed *)

Section SearchLoop.

Variable api : string -> Z -> option pynum -> option pynum -> frame.

Lemma query_result_clamp (n : Z) (s e : option pynum) :
  query_result api (clamp n) s e = query_result api n s e.
Proof. unfold query_result; now rewrite clamp_idem. Qed.

(** The DataFrames the loop keeps: the valid results, in query order. *)
Lemma search_queries_frames (qs : list string) : forall st n s e,
  snd (search_queries api st qs n s e) = filter df_valid (map (query_result api n s e) qs).
Proof.
  induction qs as [|q qs IH]; intros st n s e; [reflexivity |].
  cbn [search_queries map filter].
  destruct (search_one_query api st q n s e) as [[st1 c] df] eqn:Hs.
  specialize (IH st1 n s e).
  destruct (search_queries api st1 qs n s e) as [[st2 cs] dfs]; cbn [snd] in *.
  unfold search_one_query in Hs; injection Hs as _ _ <-.
  rewrite IH; reflexivity.
Qed.

(** Outside epoch mode each query's results are saved under its name in
    [data/posts], one after the other. *)
Lemma search_queries_plain (qs : list string) : forall st n s e,
  epoch_mode st = false ->
  fst (fst (search_queries api st qs n s e)) =
  mk_state (fold_left (fun x q => fs_write x "data/posts" (query_csv_name q) (query_result api n s e q))
                      qs (fs st))
           false (epoch_num st) (query_list st)
           (saved st ++ map (fun q => (path_join "data/posts" (query_csv_name q),
                                      Z.of_nat (List.length (query_result api n s e q)))) qs).
Proof.
  induction qs as [|q qs IH]; intros st n s e Hm.
  - destruct st; cbn in *; subst; now rewrite app_nil_r.
  - cbn [search_queries].
    destruct (search_one_query api st q n s e) as [[st1 c] df] eqn:Hs.
    unfold search_one_query in Hs; rewrite Hm in Hs; injection Hs as Hst1 _ Hdf.
    specialize (IH st1 n s e).
    destruct (search_queries api st1 qs n s e) as [[st2 cs] dfs]; cbn [fst] in *.
    subst st1 df. rewrite IH by exact Hm. cbn. rewrite <- app_assoc. reflexivity.
Qed.

(** In epoch mode the loop leaves the state alone; in both modes the
    loop keeps the query list and the epoch number. *)
Lemma search_queries_fields (qs : list string) (st : state) (n : Z) (s e : option pynum) :
  let st' := fst (fst (search_queries api st qs n s e)) in
  epoch_mode st' = epoch_mode st /\ epoch_num st' = epoch_num st /\ query_list st' = query_list st.
Proof.
  cbn zeta. destruct (epoch_mode st) eqn:Hm.
  - rewrite search_queries_epoch_mode by exact Hm. now rewrite Hm.
  - rewrite search_queries_plain by exact Hm. cbn. auto.
Qed.

Lemma search_list_of_queries_plain (st : state) (n : Z) (s e : option pynum) :
  epoch_mode st = false ->
  fst (search_list_of_queries api st n s e) =
  mk_state (fold_left (fun x q => fs_write x "data/posts" (query_csv_name q) (query_result api n s e q))
                      (query_list st) (fs st))
           false (epoch_num st) (query_list st)
           (saved st ++ map (fun q => (path_join "data/posts" (query_csv_name q),
                                      Z.of_nat (List.length (query_result api n s e q)))) (query_list st)).
Proof.
  intros Hm. unfold search_list_of_queries.
  pose proof (search_queries_plain (query_list st) st (clamp n) s e Hm) as H.
  destruct (search_queries api st (query_list st) (clamp n) s e) as [[st1 cs] dfs].
  cbn [fst] in H; subst st1; cbn [epoch_mode andb fst].
  now rewrite query_result_clamp.
Qed.

Lemma search_list_of_queries_epoch (st : state) (n : Z) (s e : option pynum) :
  epoch_mode st = true ->
  fst (search_list_of_queries api st n s e) =
  match filter df_valid (map (query_result api n s e) (query_list st)) with
  | [] => st
  | dfs => save_csv st (concat dfs) epochs_dir (Str.str_of_Z (epoch_num st))
  end.
Proof.
  intros Hm. unfold search_list_of_queries.
  pose proof (search_queries_epoch_mode api (query_list st) st (clamp n) s e Hm) as H1.
  pose proof (search_queries_frames (query_list st) st (clamp n) s e) as H2.
  rewrite query_result_clamp in H2.
  destruct (search_queries api st (query_list st) (clamp n) s e) as [[st1 cs] dfs].
  cbn [fst snd] in *; subst st1 dfs. rewrite Hm; cbn [andb].
  destruct (filter df_valid _); reflexivity.
Qed.

End SearchLoop.

(** ** What a search outside epoch mode writes *)

(** (X3) Outside epoch mode, when every query gives a valid file name (no
    NUL, no slash, at most 255 bytes with [.csv]) on a case-sensitive file
    system, [search_list_of_queries] saves each query's results to
    [data/posts/<query, spaces as _>.csv]; when two queries map to the same
    file name, the file holds the results of the last of them. *)
Theorem search_list_of_queries_last_write_wins
    (api : string -> Z -> option pynum -> option pynum -> frame)
    (st : state) (n : Z) (s e : option pynum) (pre post : list string) (q : string)
    (Hm : epoch_mode st = false) (Hq : query_list st = pre ++ q :: post)
    (Hsafe : Forall (fun q' => safe_query q' = true) (query_list st))
    (Hpost : Forall (fun q' => query_csv_name q' <> query_csv_name q) post) :
  fs_lookup (fs (fst (search_list_of_queries api st n s e))) "data/posts" (query_csv_name q)
  = Some (mk_file "data/posts" (query_csv_name q) (query_result api n s e q)).
Proof.
  rewrite search_list_of_queries_plain by exact Hm. cbn [fs]. rewrite Hq.
  apply (FsFacts.fold_write_lookup_last "data/posts" query_csv_name (query_result api n s e)).
  exact Hpost.
Qed.

Lemma search_list_of_queries_last_write_wins_witness :
  let api := fun (q : string) (_ : Z) (_ : option pynum) (_ : option pynum) =>
               [mk_row (Some (Z.of_nat (String.length q))) [Some q]] in
  let st := mk_state [] false 0 ["a b"; "a_b"]%string [] in
  fs_lookup (fs (fst (search_list_of_queries api st 20 None None))) "data/posts" "a_b.csv"
  = Some (mk_file "data/posts" "a_b.csv" [mk_row (Some 3) [Some "a_b"%string]]).
Proof.
  intros api st.
  refine (search_list_of_queries_last_write_wins api st 20 None None ["a b"%string] [] "a_b"
           eq_refl eq_refl _ (Forall_nil _)).
  vm_compute. repeat constructor.
Defined.

(** (X4) Outside epoch mode, when every query gives a valid file name (no
    NUL, no slash, at most 255 bytes with [.csv]) on a case-sensitive file
    system without symbolic links, [search_list_of_queries] changes no file
    other than the [data/posts] files named after its queries: every other
    file is as before, and the CSV listing of any directory argument the
    model covers (relative, without [..], NUL or [glob] wildcards) that does
    not name [data/posts] (such as the epoch checkpoints) is unchanged. *)
Theorem search_list_of_queries_untouched
    (api : string -> Z -> option pynum -> option pynum -> frame)
    (st : state) (n : Z) (s e : option pynum) (d k : string)
    (Hm : epoch_mode st = false)
    (Hsafe : Forall (fun q => safe_query q = true) (query_list st))
    (Hk : (plain_dir d = true /\ norm_dir d <> "data/posts"%string) \/
          Forall (fun q => query_csv_name q <> k) (query_list st)) :
  let st' := fst (search_list_of_queries api st n s e) in
  fs_lookup (fs st') d k = fs_lookup (fs st) d k /\
  (forall directory, plain_dir directory = true -> norm_dir directory <> "data/posts"%string ->
     glob_csv (fs st') directory = glob_csv (fs st) directory).
Proof.
  cbn zeta. rewrite search_list_of_queries_plain by exact Hm. cbn [fs]. split.
  - apply FsFacts.fold_write_lookup_other.
    destruct Hk as [[_ Hk] | Hk]; [left | right; exact Hk].
    intro E; subst d. apply Hk. reflexivity.
  - intros directory _ Hd. apply FsFacts.fold_write_glob_other. congruence.
Qed.

Lemma search_list_of_queries_untouched_witness :
  let api := fun (q : string) (_ : Z) (_ : option pynum) (_ : option pynum) =>
               [mk_row (Some 1) [Some q]] in
  let old := mk_file "data/posts" "python.csv" [] in
  let st := mk_state [old] false 0 ["rust lang"]%string [] in
  fs_lookup (fs (fst (search_list_of_queries api st 20 None None))) "data/posts" "python.csv"
  = Some old.
Proof.
  intros api old st.
  refine (proj1 (search_list_of_queries_untouched api st 20 None None "data/posts" "python.csv"
                   eq_refl _ (or_intror _))).
  - vm_compute. repeat constructor.
  - repeat constructor. vm_compute. discriminate.
Defined.

(** (X5) Outside epoch mode, when every query gives a valid file name (no
    NUL, no slash, at most 255 bytes with [.csv]), [search_list_of_queries]
    prints one save line per query, in query order, with the path written and the number of rows
    returned, and keeps the mode, the epoch number and the query list. *)
Theorem search_list_of_queries_save_lines
    (api : string -> Z -> option pynum -> option pynum -> frame)
    (st : state) (n : Z) (s e : option pynum) (Hm : epoch_mode st = false)
    (Hsafe : Forall (fun q => safe_query q = true) (query_list st)) :
  let st' := fst (search_list_of_queries api st n s e) in
  saved st' = saved st ++ map (fun q => (path_join "data/posts" (query_csv_name q),
                                         Z.of_nat (List.length (query_result api n s e q))))
                              (query_list st) /\
  epoch_mode st' = false /\ epoch_num st' = epoch_num st /\ query_list st' = query_list st.
Proof.
  cbn zeta. rewrite search_list_of_queries_plain by exact Hm. cbn. auto.
Qed.

Lemma search_list_of_queries_save_lines_witness :
  let api := fun (q : string) (_ : Z) (_ : option pynum) (_ : option pynum) =>
               [mk_row (Some 1) [Some q]; mk_row (Some 2) [Some q]] in
  let st := mk_state [] false 0 ["rust lang"; "python"]%string [] in
  saved (fst (search_list_of_queries api st 20 None None))
  = [("data/posts/rust_lang.csv", 2); ("data/posts/python.csv", 2)]%string.
Proof.
  intros api st.
  refine (proj1 (search_list_of_queries_save_lines api st 20 None None eq_refl _)).
  vm_compute. repeat constructor.
Defined.

(** ** What a search in epoch mode writes *)



(** ** The epoch loop *)

Section EpochLoop.

Variable api : string -> Z -> option pynum -> option pynum -> frame.

Lemma run_epoch_step (st st1 : state) (n : Z) (cs : list call) :
  epoch_mode st = true -> run_epoch api st n = Some (st1, cs) ->
  epoch_mode st1 = true /\ query_list st1 = query_list st /\
  map c_query cs = query_list st /\
  Forall (fun c => c_limit c = clamp n /\ c_max_id c = None) cs.
Proof.
  intros Hm H. unfold run_epoch in H.
  destruct (resolve_next_epoch (fs st)) as [ep|]; [| discriminate].
  change (epoch_num (set_epoch_num st ep)) with ep in H.
  destruct (negb (ep =? 0) && int_to_float_overflows (ep - 1))%bool; [discriminate |].
  injection H as H.
  pose proof (search_list_of_queries_epoch api (set_epoch_num st ep) n
                (Some (get_start_from_epoch ep)) None Hm) as Hs.
  pose proof (search_list_of_queries_calls api (set_epoch_num st ep) n
                (Some (get_start_from_epoch ep)) None) as [Hc1 Hc2].
  rewrite H in Hs, Hc1, Hc2. cbn [fst snd] in *.
  split; [| split; [| split]].
  - destruct (filter df_valid _); subst st1; exact Hm.
  - destruct (filter df_valid _); subst st1; reflexivity.
  - exact Hc1.
  - eapply Forall_impl; [| exact Hc2]. intros c [H1 [_ H3]]. split; [exact H1 | exact H3].
Qed.

Lemma run_epoch_loop_inv (n : Z) (k : nat) : forall st st' cs,
  epoch_mode st = true -> run_epoch_loop api st k n = Some (st', cs) ->
  epoch_mode st' = true /\ query_list st' = query_list st /\
  map c_query cs = List.concat (repeat (query_list st) k) /\
  Forall (fun c => c_limit c = clamp n /\ c_max_id c = None) cs.
Proof.
  induction k as [|k IH]; intros st st' cs Hm H; cbn [run_epoch_loop] in H.
  - injection H as <- <-. repeat split; auto.
  - destruct (run_epoch api st n) as [[st1 cs1]|] eqn:H1; [| discriminate].
    destruct (run_epoch_loop api st1 k n) as [[st2 cs2]|] eqn:H2; [| discriminate].
    injection H as <- <-.
    destruct (run_epoch_step st st1 n cs1 Hm H1) as [Hm1 [Hq1 [Hc1 Hf1]]].
    destruct (IH st1 st2 cs2 Hm1 H2) as [Hm2 [Hq2 [Hc2 Hf2]]].
    repeat split.
    + exact Hm2.
    + congruence.
    + rewrite map_app, Hc1, Hc2, Hq1. reflexivity.
    + apply Forall_app; split; assumption.
Qed.

End EpochLoop.

(** (X7) When [run_epochs] completes, epoch mode is switched off again, the
    query list is unchanged, and the searches made are the query list once
    per epoch, in order, each with the clamped limit and no upper bound. *)
Theorem run_epochs_calls (api : string -> Z -> option pynum -> option pynum -> frame)
    (st st' : state) (k n : Z) (calls : list call)
    (H : run_epochs api st k n = Some (st', calls)) :
  epoch_mode st' = false /\ query_list st' = query_list st /\
  map c_query calls = List.concat (repeat (query_list st) (Z.to_nat k)) /\
  Forall (fun c => c_limit c = clamp n /\ c_max_id c = None) calls.
Proof.
  unfold run_epochs in H.
  destruct (run_epoch_loop api (set_epoch_mode st true) (Z.to_nat k) n) as [[st1 cs]|] eqn:Hl;
    [| discriminate].
  injection H as <- <-.
  destruct (run_epoch_loop_inv api n (Z.to_nat k) (set_epoch_mode st true) _ _ eq_refl Hl) as [_ [Hq [Hc Hf]]].
  repeat split; assumption.
Qed.

Lemma run_epochs_calls_witness :
  let api := fun (q : string) (_ : Z) (_ : option pynum) (_ : option pynum) =>
               [mk_row (Some 5) [Some q]] in
  let st := mk_state [] false 0 ["rust"; "python"]%string [] in
  match run_epochs api st 2 99 with
  | Some (st', calls) =>
      map c_query calls = ["rust"; "python"; "rust"; "python"]%string /\
      Forall (fun c => c_limit c = 40 /\ c_max_id c = None) calls
  | None => False
  end.
Proof.
  intros api st.
  destruct (run_epochs api st 2 99) as [[st' calls]|] eqn:H.
  - destruct (run_epochs_calls api st st' 2 99 calls H) as [_ [_ [Hc Hf]]].
    split; [exact Hc | exact Hf].
  - vm_compute in H. discriminate H.
Defined.

(** ** Checkpoint file names *)

Module StrFacts.

Lemma int_acc_app (x y : string) : forall a,
  Str.int_acc a (x ++ y) = Str.int_acc (Str.int_acc a x) y.
Proof. induction x as [|c x IH]; intros a; [reflexivity | apply IH]. Qed.

Lemma all_digits_app (x y : string) :
  Str.all_digits (x ++ y) = Str.all_digits x && Str.all_digits y.
Proof. induction x as [|c x IH]; [reflexivity | cbn; rewrite IH; apply andb_assoc]. Qed.

Lemma has_backslash_app (x y : string) :
  Str.has_backslash (x ++ y) = Str.has_backslash x || Str.has_backslash y.
Proof. induction x as [|c x IH]; [reflexivity | cbn; rewrite IH; apply orb_assoc]. Qed.

Lemma length_app (x y : string) : String.length (x ++ y) = (String.length x + String.length y)%nat.
Proof. induction x as [|c x IH]; [reflexivity | cbn; now rewrite IH]. Qed.

Lemma digit_char_val (d : Z) : 0 <= d < 10 ->
  Z.of_nat (nat_of_ascii (Str.digit_char d)) = 48 + d.
Proof.
  intros Hd. unfold Str.digit_char.
  rewrite nat_ascii_embedding by lia. lia.
Qed.

Lemma digit_char_digit (d : Z) : 0 <= d < 10 -> Str.is_digit_char (Str.digit_char d) = true.
Proof.
  intros Hd. pose proof (digit_char_val d Hd) as Hv. unfold Str.is_digit_char.
  apply orb_true_iff; left; apply orb_true_iff; left; apply orb_true_iff; left.
  apply andb_true_iff; split; apply Nat.leb_le; lia.
Qed.

Lemma digits_fuel_acc (f : nat) : forall n acc,
  Str.digits_fuel f n acc = (Str.digits_fuel f n "" ++ acc)%string.
Proof.
  induction f as [|f IH]; intros n acc; [reflexivity |]. cbn [Str.digits_fuel].
  destruct (n <? 10); [reflexivity |].
  rewrite IH, (IH _ (String _ "")). now rewrite LinesFacts.str_app_assoc.
Qed.

Lemma digits_fuel_props (f : nat) : forall n, (1 <= f)%nat -> 0 <= n < 10 ^ Z.of_nat f ->
  let ds := Str.digits_fuel f n "" in
  Str.int ds = n /\ Str.all_digits ds = true /\ ds <> ""%string.
Proof.
  induction f as [|f IH]; intros n Hf Hn; [lia |]. cbn zeta. cbn [Str.digits_fuel].
  assert (Hm : 0 <= n mod 10 < 10) by (apply Z.mod_pos_bound; lia).
  destruct (n <? 10) eqn:Hlt.
  - apply Z.ltb_lt in Hlt. rewrite Z.mod_small by lia.
    rewrite Z.mod_small in Hm by lia.
    unfold Str.int; cbn [Str.int_acc Str.all_digits].
    rewrite digit_char_val, digit_char_digit by lia.
    repeat split; [lia | discriminate].
  - apply Z.ltb_ge in Hlt.
    destruct f as [|f]; [cbn in Hn; lia |].
    rewrite Nat2Z.inj_succ, Z.pow_succ_r in Hn by lia.
    destruct (IH (n / 10) ltac:(lia) ltac:(split; [apply Z.div_pos | apply Z.div_lt_upper_bound]; lia))
      as [Hi [Ha Hne]].
    rewrite digits_fuel_acc.
    repeat split.
    + unfold Str.int in *. rewrite int_acc_app, Hi. cbn [Str.int_acc].
      rewrite digit_char_val by exact Hm. pose proof (Z.div_mod n 10). lia.
    + rewrite all_digits_app, Ha. cbn. now rewrite digit_char_digit.
    + intros H. apply (f_equal String.length) in H. rewrite length_app in H. cbn in H. lia.
Qed.

Lemma str_of_Z_nonneg (e : Z) : 0 <= e ->
  Str.int (Str.str_of_Z e) = e /\ Str.all_digits (Str.str_of_Z e) = true /\
  Str.str_of_Z e <> ""%string.
Proof.
  intros He. unfold Str.str_of_Z. rewrite Z.abs_eq by exact He.
  replace (e <? 0) with false by (symmetry; apply Z.ltb_ge; lia).
  apply digits_fuel_props; [lia |]. split; [exact He |].
  rewrite Nat2Z.inj_succ, Z2Nat.id by apply Z.log2_nonneg.
  destruct (Z.eq_dec e 0) as [->|Hne]; [reflexivity |].
  apply Z.lt_le_trans with (2 ^ Z.succ (Z.log2 e)).
  - apply Z.log2_spec; lia.
  - apply Z.pow_le_mono_l; lia.
Qed.

Lemma all_digits_no_backslash (s : string) : Str.all_digits s = true -> Str.has_backslash s = false.
Proof.
  induction s as [|c s IH]; intros H; [reflexivity |]. cbn in *.
  apply andb_true_iff in H as [Hc H]. rewrite IH by exact H.
  destruct (Ascii.eqb_spec c "\"%char) as [->|]; [discriminate Hc | reflexivity].
Qed.

Lemma after_last_backslash_none (s : string) :
  Str.has_backslash s = false -> Str.after_last_backslash s = s.
Proof.
  induction s as [|c s IH]; intros H; [reflexivity |]. cbn in *.
  apply orb_false_iff in H as [Hc H]. now rewrite H, Hc.
Qed.

Lemma substring_app_prefix (a b : string) : substring 0 (String.length a) (a ++ b) = a.
Proof. induction a as [|c a IH]; [now destruct b | cbn; now rewrite IH]. Qed.

Lemma substring_app_suffix (a b : string) (k : nat) :
  substring (String.length a) k (a ++ b) = substring 0 k b.
Proof. induction a as [|c a IH]; [reflexivity | exact IH]. Qed.

Lemma substring_full (s : string) : substring 0 (String.length s) s = s.
Proof. induction s as [|c s IH]; [reflexivity | cbn; now rewrite IH]. Qed.

Lemma extract_csv_name_app (s : string) :
  Str.has_backslash s = false -> s <> ""%string ->
  extract_csv_name (s ++ ".csv") = Some s.
Proof.
  intros Hb Hne. unfold extract_csv_name.
  rewrite after_last_backslash_none by (rewrite has_backslash_app, Hb; reflexivity).
  unfold Str.ends_with. rewrite length_app. cbn [String.length].
  replace (String.length s + 4 - 4)%nat with (String.length s) by lia.
  rewrite substring_app_suffix, substring_app_prefix.
  assert (Hl : (1 <= String.length s)%nat) by (destruct s; [contradiction | cbn; lia]).
  replace (Nat.leb 4 (String.length s + 4)) with true by (symmetry; apply Nat.leb_le; lia).
  replace (Nat.ltb 4 (String.length s + 4)) with true by (symmetry; apply Nat.ltb_lt; lia).
  reflexivity.
Qed.

End StrFacts.

(** (X8) The checkpoint name an epoch [e >= 0] is saved under,
    [str(e) + '.csv'], is read back by [__extract_csv_name] as [str(e)],
    which passes [isdigit] and which [int] turns back into [e]. *)
Theorem epoch_csv_name_roundtrip (e : Z) (He : 0 <= e) :
  extract_csv_name (Str.str_of_Z e ++ ".csv") = Some (Str.str_of_Z e) /\
  Str.isdigit (Str.str_of_Z e) = true /\ Str.int (Str.str_of_Z e) = e.
Proof.
  destruct (StrFacts.str_of_Z_nonneg e He) as [Hi [Ha Hne]].
  split; [| split; [| exact Hi]].
  - apply StrFacts.extract_csv_name_app; [| exact Hne].
    apply StrFacts.all_digits_no_backslash, Ha.
  - destruct (Str.str_of_Z e); [contradiction | exact Ha].
Qed.

Lemma epoch_csv_name_roundtrip_witness :
  extract_csv_name "1024.csv" = Some "1024"%string /\
  Str.isdigit "1024" = true /\ Str.int "1024" = 1024.
Proof. exact (epoch_csv_name_roundtrip 1024 ltac:(lia)). Defined.

(** ** The resume step *)

Module ResumeFacts.

Lemma insert_in (s x : string) (l : list string) : In x (Str.insert s l) <-> x = s \/ In x l.
Proof.
  induction l as [|t l IH]; cbn [Str.insert]; [cbn; intuition congruence |].
  destruct (Str.ltb t s); cbn; [rewrite IH |]; intuition congruence.
Qed.

Lemma sort_in (x : string) (l : list string) : In x (Str.sort l) <-> In x l.
Proof.
  induction l as [|s l IH]; cbn [Str.sort]; [reflexivity |].
  rewrite insert_in, IH. cbn; intuition congruence.
Qed.

Lemma sort_nil (l : list string) : Str.sort l = [] -> l = [].
Proof.
  destruct l as [|s l]; [reflexivity |]. intros H.
  assert (Hin : In s (Str.sort (s :: l))) by (apply sort_in; left; reflexivity).
  rewrite H in Hin; destruct Hin.
Qed.

Lemma is_digit_char_ge (c : ascii) : Str.is_digit_char c = true -> (48 <= nat_of_ascii c)%nat.
Proof.
  unfold Str.is_digit_char. rewrite !orb_true_iff.
  intros [[[H | H] | H] | H].
  - apply andb_true_iff in H as [H _]. apply Nat.leb_le in H. exact H.
  - apply Nat.eqb_eq in H. lia.
  - apply Nat.eqb_eq in H. lia.
  - apply Nat.eqb_eq in H. lia.
Qed.

Lemma int_acc_nonneg (s : string) : forall a, 0 <= a -> Str.all_digits s = true -> 0 <= Str.int_acc a s.
Proof.
  induction s as [|c s IH]; intros a Ha H; [exact Ha |]. cbn in *.
  apply andb_true_iff in H as [Hc H]. apply IH; [| exact H].
  apply is_digit_char_ge in Hc. lia.
Qed.

(** An ASCII digit string is a decimal string: the superscript digits are
    not ASCII. *)
Lemma decimal_of_digits_ascii7 (s : string) :
  Str.all_digits s = true -> ascii7 s = true -> Str.all_decimal s = true.
Proof.
  unfold ascii7. induction s as [|c s IH]; [reflexivity |].
  cbn [Str.all_digits Str.all_decimal list_ascii_of_string forallb].
  intros Hd Ha. apply andb_true_iff in Hd as [Hc Hd], Ha as [Hc' Ha].
  rewrite (IH Hd Ha), andb_true_r.
  unfold Str.is_digit_char in Hc. unfold Str.is_decimal_char.
  apply Nat.ltb_lt in Hc'. rewrite !orb_true_iff in Hc.
  destruct Hc as [[[H | H] | H] | H]; [exact H | apply Nat.eqb_eq in H; lia ..].
Qed.

Lemma ascii7_substring (s : string) : forall n m,
  ascii7 s = true -> ascii7 (substring n m s) = true.
Proof.
  unfold ascii7. induction s as [|c s IH]; intros [|n] [|m] H; try reflexivity.
  - cbn [substring list_ascii_of_string forallb] in *.
    apply andb_true_iff in H as [Hc H]. rewrite Hc. apply IH, H.
  - cbn [substring list_ascii_of_string forallb] in *.
    apply andb_true_iff in H as [_ H]. apply IH, H.
  - cbn [substring list_ascii_of_string forallb] in *.
    apply andb_true_iff in H as [_ H]. apply IH, H.
Qed.

Lemma substring_length_le (s : string) : forall n m,
  (String.length (substring n m s) <= String.length s)%nat.
Proof.
  induction s as [|c s IH]; intros [|n] [|m]; cbn; try lia.
  - specialize (IH 0%nat m). lia.
  - specialize (IH n 0%nat). lia.
  - specialize (IH n (S m)). lia.
Qed.

(** Where a digit stem of the resume step comes from. *)
Lemma stem_origin (x : list file) (s : string) :
  In s (epoch_stems x) ->
  exists f, In f (glob_csv x epochs_dir) /\ extract_csv_name (f_name f) = Some s.
Proof.
  unfold epoch_stems. intros H. apply filter_In in H as [H _].
  apply in_flat_map in H as (o & Ho & Hs).
  apply in_map_iff in Ho as (f & <- & Hf).
  destruct (extract_csv_name (f_name f)) as [t|] eqn:E; [| destruct Hs].
  destruct Hs as [<- | []]. exists f. split; [exact Hf | exact E].
Qed.

Lemma stem_of_name (name s : string) :
  extract_csv_name name = Some s -> Str.has_backslash name = false ->
  exists k, s = substring 0 k name.
Proof.
  unfold extract_csv_name. intros H Hb.
  rewrite StrFacts.after_last_backslash_none in H by exact Hb.
  destruct (_ && _)%bool; [| discriminate].
  injection H as <-. eexists; reflexivity.
Qed.

Lemma isdigit_int_nonneg (s : string) : Str.isdigit s = true -> 0 <= Str.int s.
Proof.
  intros H. apply int_acc_nonneg; [lia |]. destruct s; [discriminate | exact H].
Qed.

(** A listed CSV name without a backslash always has a stem. *)
Lemma extract_glob_name (name : string) :
  Str.has_backslash name = false -> glob_csv_name name = true ->
  exists s, extract_csv_name name = Some s.
Proof.
  intros Hb Hg. unfold extract_csv_name.
  rewrite StrFacts.after_last_backslash_none by exact Hb.
  unfold glob_csv_name in Hg. apply andb_true_iff in Hg as [He Hd].
  rewrite He. cbn [andb].
  destruct (Nat.ltb 4 (String.length name)) eqn:Hl; [eexists; reflexivity |].
  exfalso. unfold Str.ends_with in He. apply andb_true_iff in He as [H4 Hs].
  apply Nat.leb_le in H4. apply Nat.ltb_ge in Hl. cbn [String.length] in H4, Hs.
  replace (String.length name - 4)%nat with 0%nat in Hs by lia.
  replace 4%nat with (String.length name) in Hs by lia.
  rewrite StrFacts.substring_full in Hs. apply String.eqb_eq in Hs. subst name.
  discriminate Hd.
Qed.

Lemma glob_names_write (x : list file) (d n : string) (df : frame) (directory : string) :
  map f_name (glob_csv (fs_write x d n df) directory) =
  map f_name (glob_csv x directory) ++
  (if existsb (fs_key d n) x then []
   else if String.eqb d (norm_dir directory) && glob_csv_name n then [n] else []).
Proof.
  unfold glob_csv, fs_write. fold (fs_key d n).
  destruct (existsb (fs_key d n) x).
  - rewrite app_nil_r. induction x as [|f x IH]; [reflexivity |]. cbn [map filter].
    destruct ((f_dir f =? d) && (f_name f =? n))%string eqn:Ef.
    + apply andb_true_iff in Ef as [Hd Hn]. apply String.eqb_eq in Hd, Hn.
      cbn [f_dir f_name mk_file]. rewrite Hd, Hn.
      destruct ((d =? norm_dir directory)%string && glob_csv_name n); cbn [map f_name mk_file];
        rewrite IH; try rewrite Hn; reflexivity.
    + destruct ((f_dir f =? norm_dir directory)%string && glob_csv_name (f_name f)); cbn [map];
        now rewrite IH.
  - rewrite filter_app, map_app. cbn [filter f_dir f_name mk_file].
    destruct ((d =? norm_dir directory)%string && glob_csv_name n); reflexivity.
Qed.

End ResumeFacts.

(** (X9) When every CSV file name of [data/posts/epochs] is ASCII, has no
    backslash and at most 4300 characters, the resume step of
    [__run_epoch] does not fail: it yields an epoch [e], which is 0 when
    the directory has no digit-named CSV file and at least 1 otherwise. *)
Theorem resolve_next_epoch_total (x : list file)
    (H : forall f, In f (glob_csv x epochs_dir) ->
         Str.has_backslash (f_name f) = false /\ ascii7 (f_name f) = true /\
         Nat.leb (String.length (f_name f)) 4300 = true) :
  exists e, resolve_next_epoch x = Some e /\
            (epoch_stems x = [] -> e = 0) /\ (epoch_stems x <> [] -> 1 <= e).
Proof.
  unfold resolve_next_epoch; cbn zeta.
  destruct (existsb _ (map _ (glob_csv x epochs_dir))) eqn:E.
  - exfalso. apply existsb_exists in E as [o [Hin Ho]].
    apply in_map_iff in Hin as [f [Hf Hin]].
    pose proof (H f Hin) as [Hb _].
    apply glob_csv_iff in Hin as [_ [_ Hg]].
    destruct (ResumeFacts.extract_glob_name (f_name f) Hb Hg) as [s Hs].
    rewrite Hs in Hf; subst o; discriminate Ho.
  - change (filter Str.isdigit (flat_map _ (map _ (glob_csv x epochs_dir)))) with (epoch_stems x).
    destruct (rev (Str.sort (epoch_stems x))) as [|last r] eqn:Er.
    + exists 0. split; [reflexivity | split; [reflexivity |]].
      intros Hne; exfalso; apply Hne, ResumeFacts.sort_nil.
      rewrite <- (rev_involutive (Str.sort _)), Er; reflexivity.
    + assert (Hl : In last (epoch_stems x)).
      { apply ResumeFacts.sort_in, in_rev. rewrite Er; left; reflexivity. }
      assert (Hd : Str.isdigit last = true) by (apply filter_In in Hl; apply Hl).
      pose proof (ResumeFacts.isdigit_int_nonneg last Hd).
      assert (Hc : (Str.all_decimal last && Nat.leb (String.length last) 4300)%bool = true).
      { destruct (ResumeFacts.stem_origin x last Hl) as (f & Hf & Hx).
        destruct (H f Hf) as (Hb & Ha & Hn).
        destruct (ResumeFacts.stem_of_name _ _ Hx Hb) as [k Hk].
        apply andb_true_iff; split.
        - apply ResumeFacts.decimal_of_digits_ascii7.
          + destruct last; [discriminate | exact Hd].
          + rewrite Hk. apply ResumeFacts.ascii7_substring, Ha.
        - apply Nat.leb_le. apply Nat.leb_le in Hn.
          pose proof (ResumeFacts.substring_length_le (f_name f) 0 k). rewrite Hk. lia. }
      rewrite Hc.
      exists (Str.int last + 1). split; [reflexivity | split; [| lia]].
      intros He; rewrite He in Hl; destruct Hl.
Qed.

Lemma resolve_next_epoch_total_witness :
  exists e, resolve_next_epoch [mk_file epochs_dir "7.csv" []; mk_file epochs_dir "notes.csv" []] = Some e /\
            (epoch_stems [mk_file epochs_dir "7.csv" []; mk_file epochs_dir "notes.csv" []] = [] -> e = 0) /\
            (epoch_stems [mk_file epochs_dir "7.csv" []; mk_file epochs_dir "notes.csv" []] <> [] -> 1 <= e).
Proof.
  apply resolve_next_epoch_total.
  intros f Hf. vm_compute in Hf.
  destruct Hf as [<- | [<- | []]]; repeat split.
Defined.

(** (X10) A successful [combine_epochs] does not move the resume point:
    the [combined_epochs.csv] it saves in [data/posts/epochs] is not a
    digit name, so the resume step of [__run_epoch] gives the same result
    before and after. *)
Theorem combine_epochs_keeps_resume (st st' : state) (directory : string) (res : frame)
    (H : combine_epochs st directory = inr (st', res)) :
  resolve_next_epoch (fs st') = resolve_next_epoch (fs st).
Proof.
  destruct (combine_epochs_result st st' directory res H) as [_ [Hst _]].
  subst st'. unfold save_csv; cbn [fs add_saved set_fs].
  unfold resolve_next_epoch.
  rewrite <- !(map_map f_name extract_csv_name).
  rewrite ResumeFacts.glob_names_write.
  destruct (existsb _ (fs st)); [now rewrite app_nil_r |].
  change ((epochs_dir =? epochs_dir)%string && glob_csv_name ("combined_epochs" ++ ".csv"))
    with true.
  cbn zeta. rewrite !map_app, existsb_app, flat_map_app, filter_app.
  change (map extract_csv_name [("combined_epochs" ++ ".csv")%string])
    with [Some "combined_epochs"%string].
  cbn [existsb flat_map app filter]. rewrite orb_false_r.
  change (Str.isdigit "combined_epochs") with false. now rewrite app_nil_r.
Qed.

Lemma combine_epochs_keeps_resume_witness :
  let st := mk_state [mk_file epochs_dir "0.csv" [mk_row (Some 1) []];
                      mk_file epochs_dir "1.csv" [mk_row (Some 2) []]] false 0 [] [] in
  match combine_epochs st epochs_dir with
  | inr (st', _) => resolve_next_epoch (fs st') = Some 2
  | inl _ => False
  end.
Proof.
  intros st.
  destruct (combine_epochs st epochs_dir) as [err | [st' res]] eqn:H.
  - vm_compute in H. discriminate H.
  - rewrite (combine_epochs_keeps_resume st st' epochs_dir res H). reflexivity.
Defined.

(** ** String order against numeric order *)

Module OrderFacts.

Lemma nat_of_ascii_inj (a b : ascii) : nat_of_ascii a = nat_of_ascii b -> a = b.
Proof.
  intros H. rewrite <- (ascii_nat_embedding a), <- (ascii_nat_embedding b). now rewrite H.
Qed.

Lemma ltb_irrefl (s : string) : Str.ltb s s = false.
Proof.
  induction s as [|c s IH]; [reflexivity |]. cbn [Str.ltb].
  now rewrite Nat.ltb_irrefl.
Qed.

Lemma ltb_trans (a : string) : forall b c, Str.ltb a b = true -> Str.ltb b c = true -> Str.ltb a c = true.
Proof.
  induction a as [|x a IH]; intros [|y b] [|z c] H1 H2; cbn [Str.ltb] in *;
    try discriminate; try reflexivity.
  destruct (Nat.ltb_spec (nat_of_ascii x) (nat_of_ascii y)),
           (Nat.ltb_spec (nat_of_ascii y) (nat_of_ascii x)),
           (Nat.ltb_spec (nat_of_ascii y) (nat_of_ascii z)),
           (Nat.ltb_spec (nat_of_ascii z) (nat_of_ascii y)),
           (Nat.ltb_spec (nat_of_ascii x) (nat_of_ascii z)),
           (Nat.ltb_spec (nat_of_ascii z) (nat_of_ascii x));
    try discriminate; try reflexivity; try lia.
  eapply IH; eassumption.
Qed.

Lemma ltb_total (a : string) : forall b, a <> b -> Str.ltb a b = true \/ Str.ltb b a = true.
Proof.
  induction a as [|x a IH]; intros [|y b] Hne; cbn [Str.ltb]; auto.
  destruct (Nat.ltb_spec (nat_of_ascii x) (nat_of_ascii y)),
           (Nat.ltb_spec (nat_of_ascii y) (nat_of_ascii x)); auto; try lia.
  assert (Hxy : x = y) by (apply nat_of_ascii_inj; lia). subst y.
  apply IH. congruence.
Qed.

Lemma ltb_asym (a b : string) : Str.ltb a b = true -> Str.ltb b a = false.
Proof.
  intros H. destruct (Str.ltb b a) eqn:E; [| reflexivity].
  pose proof (ltb_trans a b a H E) as Ha. now rewrite ltb_irrefl in Ha.
Qed.

Lemma not_ltb_trans (a b c : string) :
  Str.ltb a b = false -> Str.ltb b c = false -> Str.ltb a c = false.
Proof.
  intros H1 H2. destruct (Str.ltb a c) eqn:E; [| reflexivity]. exfalso.
  destruct (String.string_dec a b) as [<- | Hne]; [congruence |].
  destruct (ltb_total a b Hne) as [H | H]; [congruence |].
  rewrite (ltb_trans b a c H E) in H2. discriminate.
Qed.

(** The last element of an insertion. *)
Lemma insert_last (s d : string) (l : list string) :
  last (Str.insert s l) d = if forallb (fun t => Str.ltb t s) l then s else last l d.
Proof.
  induction l as [|t l IH]; [reflexivity |]. cbn [Str.insert forallb].
  destruct (Str.ltb t s) eqn:E; cbn [andb].
  - destruct l as [|t' l].
    + reflexivity.
    + assert (Hne : Str.insert s (t' :: l) <> []) by (cbn; destruct (Str.ltb t' s); discriminate).
      transitivity (last (Str.insert s (t' :: l)) d).
      * destruct (Str.insert s (t' :: l)); [contradiction | reflexivity].
      * rewrite IH. reflexivity.
  - reflexivity.
Qed.

(** The last element of the sorted list is not below any element. *)
Lemma sort_last_max (d : string) (l : list string) :
  forall y, In y l -> Str.ltb (last (Str.sort l) d) y = false.
Proof.
  induction l as [|s l IH]; intros y Hy; [destruct Hy |]. cbn [Str.sort].
  rewrite insert_last.
  destruct (forallb (fun t => Str.ltb t s) (Str.sort l)) eqn:E.
  - destruct Hy as [<- | Hy]; [apply ltb_irrefl |].
    rewrite forallb_forall in E. apply ltb_asym, E, ResumeFacts.sort_in, Hy.
  - destruct Hy as [<- | Hy]; [| apply IH, Hy].
    destruct (existsb (fun t => negb (Str.ltb t s)) (Str.sort l)) eqn:Ex.
    + apply existsb_exists in Ex as [t [Ht Hts]]. apply negb_true_iff in Hts.
      apply (not_ltb_trans _ t); [apply IH, ResumeFacts.sort_in, Ht | exact Hts].
    + exfalso.
      assert (Hall : forallb (fun t => Str.ltb t s) (Str.sort l) = true).
      { apply forallb_forall. intros t Ht.
        destruct (Str.ltb t s) eqn:Et; [reflexivity |].
        assert (Hc : existsb (fun t => negb (Str.ltb t s)) (Str.sort l) = true)
          by (apply existsb_exists; exists t; now rewrite Et).
        congruence. }
      congruence.
Qed.

Lemma digit_val (c : ascii) : Str.is_decimal_char c = true ->
  0 <= Z.of_nat (nat_of_ascii c) - 48 <= 9.
Proof.
  unfold Str.is_decimal_char. intros H. apply andb_true_iff in H as [H1 H2].
  apply Nat.leb_le in H1, H2. lia.
Qed.

Lemma int_acc_shift (s : string) : forall acc,
  Str.int_acc acc s = acc * 10 ^ Z.of_nat (String.length s) + Str.int_acc 0 s.
Proof.
  induction s as [|c s IH]; intros acc; [cbn; lia |]. cbn [Str.int_acc String.length].
  rewrite IH, (IH (0 * 10 + _)). rewrite Nat2Z.inj_succ, Z.pow_succ_r by lia. ring.
Qed.

Lemma int_bound (s : string) : Str.all_decimal s = true ->
  0 <= Str.int s < 10 ^ Z.of_nat (String.length s).
Proof.
  unfold Str.int. induction s as [|c s IH]; intros H; [cbn; lia |].
  cbn [Str.all_decimal] in H. apply andb_true_iff in H as [Hc H].
  specialize (IH H). pose proof (digit_val c Hc).
  cbn [Str.int_acc String.length]. rewrite int_acc_shift.
  rewrite Nat2Z.inj_succ, Z.pow_succ_r by lia. nia.
Qed.

(** On digit strings of one length, the string order is the numeric order. *)
Lemma ltb_int (a : string) : forall b,
  String.length a = String.length b -> Str.all_decimal a = true -> Str.all_decimal b = true ->
  Str.ltb a b = true -> Str.int a < Str.int b.
Proof.
  induction a as [|x a IH]; intros [|y b] Hl Ha Hb H; cbn in Hl; try discriminate; try lia.
  cbn [Str.all_decimal] in Ha, Hb. apply andb_true_iff in Ha as [Hx Ha], Hb as [Hy Hb].
  pose proof (digit_val x Hx). pose proof (digit_val y Hy).
  pose proof (int_bound a Ha). pose proof (int_bound b Hb).
  injection Hl as Hl.
  unfold Str.int in *. cbn [Str.int_acc]. rewrite !(int_acc_shift _ (0 * 10 + _)).
  rewrite <- Hl in *. cbn [Str.ltb] in H.
  set (P := 10 ^ Z.of_nat (String.length a)) in *.
  destruct (Nat.ltb_spec (nat_of_ascii x) (nat_of_ascii y)).
  - nia.
  - destruct (Nat.ltb_spec (nat_of_ascii y) (nat_of_ascii x)); [discriminate |].
    specialize (IH b Hl Ha Hb H). nia.
Qed.

Lemma fold_max_le (l : list string) (M : Z) :
  0 <= M + 1 -> (forall y, In y l -> Str.int y <= M) ->
  fold_right (fun s acc => Z.max (Str.int s + 1) acc) 0 l <= M + 1.
Proof.
  induction l as [|s l IH]; intros H0 H; cbn [fold_right]; [lia |].
  specialize (H s (or_introl eq_refl)) as Hs.
  assert (fold_right (fun s acc => Z.max (Str.int s + 1) acc) 0 l <= M + 1)
    by (apply IH; [lia | intros y Hy; apply H; right; exact Hy]).
  lia.
Qed.

Lemma fold_max_ge (l : list string) (m : string) :
  In m l -> Str.int m + 1 <= fold_right (fun s acc => Z.max (Str.int s + 1) acc) 0 l.
Proof.
  induction l as [|s l IH]; intros Hm; [destruct Hm |]. cbn [fold_right].
  destruct Hm as [<- | Hm]; [lia |]. specialize (IH Hm). lia.
Qed.

End OrderFacts.

(** (X11) When every digit-named CSV file of [data/posts/epochs] is named
    with ASCII digits only (no superscript digit), all names having the
    same length, the resume step of [__run_epoch] (when it does not fail)
    resumes at one more than the largest epoch number found, or at 0 when
    there is none. *)
Theorem resolve_next_epoch_same_length (x : list file) (L : nat)
    (Hok : resolve_next_epoch x <> None)
    (Hdec : Forall (fun s => Str.all_decimal s = true) (epoch_stems x))
    (Hlen : Forall (fun s => String.length s = L) (epoch_stems x)) :
  resolve_next_epoch x = Some (fold_right (fun s acc => Z.max (Str.int s + 1) acc) 0 (epoch_stems x)).
Proof.
  revert Hok. unfold resolve_next_epoch; cbn zeta.
  destruct (existsb _ (map _ (glob_csv x epochs_dir))); [intros H; now contradiction H |].
  intros Hok.
  change (filter Str.isdigit (flat_map _ (map _ (glob_csv x epochs_dir)))) with (epoch_stems x)
    in Hok |- *.
  destruct (rev (Str.sort (epoch_stems x))) as [|m r] eqn:Er.
  - assert (Hs : Str.sort (epoch_stems x) = []).
    { rewrite <- (rev_involutive (Str.sort _)), Er; reflexivity. }
    now rewrite (ResumeFacts.sort_nil _ Hs).
  - assert (Hlast : last (Str.sort (epoch_stems x)) ""%string = m).
    { rewrite <- (rev_involutive (Str.sort _)), Er. cbn [rev]. apply last_last. }
    assert (Hm : In m (epoch_stems x)).
    { apply ResumeFacts.sort_in, in_rev. rewrite Er; left; reflexivity. }
    assert (Hdig : forall s, In s (epoch_stems x) -> Str.all_digits s = true).
    { intros s Hs. apply filter_In in Hs as [_ Hs]. destruct s; [discriminate | exact Hs]. }
    rewrite Forall_forall in Hdec.
    rewrite Forall_forall in Hlen.
    destruct (Str.all_decimal m && _)%bool; [| exfalso; apply Hok; reflexivity].
    f_equal. symmetry. apply Z.le_antisymm.
    + apply OrderFacts.fold_max_le;
        [pose proof (ResumeFacts.int_acc_nonneg m 0 ltac:(lia) (Hdig m Hm)); unfold Str.int; lia |].
      intros y Hy. pose proof (OrderFacts.sort_last_max ""%string _ y Hy) as Hmax.
      rewrite Hlast in Hmax.
      destruct (String.string_dec m y) as [<- | Hne]; [lia |].
      destruct (OrderFacts.ltb_total m y Hne) as [H | H]; [congruence |].
      apply Z.lt_le_incl, OrderFacts.ltb_int; auto.
      rewrite (Hlen y Hy), (Hlen m Hm); reflexivity.
    + apply OrderFacts.fold_max_ge, Hm.
Qed.

Lemma resolve_next_epoch_same_length_witness :
  resolve_next_epoch [mk_file epochs_dir "07.csv" []; mk_file epochs_dir "12.csv" [];
                      mk_file epochs_dir "09.csv" []]
  = Some 13.
Proof.
  refine (resolve_next_epoch_same_length
            [mk_file epochs_dir "07.csv" []; mk_file epochs_dir "12.csv" [];
             mk_file epochs_dir "09.csv" []] 2 _ _ _).
  - vm_compute. discriminate.
  - vm_compute. repeat constructor.
  - vm_compute. repeat constructor.
Defined.
